(** * MCBS (Minecraft Bot Script): a shallow embedding of [mcbs.js]

    The bot of [mcbs.js] is one object graph mutated by three kinds of
    callbacks: packet handlers registered on the protocol client, the two
    50 ms intervals of [Physics] and [Combat], and the methods a script
    calls.  JavaScript runs each callback to completion, so the embedding is
    a state machine: a record [Bot] for the object graph, one function per
    handler or method, and [step]/[run] to drive it with a list of inputs.

    Conventions.
    - A JS number that a packet or a call carries (a coordinate, an angle, a
      health value) is a rational ([Q]); identifiers, slot numbers, item
      counts, block-type ids and the two cooldown counters are integers
      ([Z]).  A number the bot computes and stores (its position, velocity,
      yaw and pitch, the position of an entity) is a rational or [NaN]
      ([Num.t]): the [entity_move] handler produces [NaN], and [NaN] decides
      every comparison it reaches.
    - Arithmetic on rationals is exact where the source rounds to the nearest
      double, and there are no infinities.  The properties below are chosen
      so that they do not depend on it: none states the value of a computed
      sum or product, and in the examples every comparison and every block
      lookup that decides what is stated comes out in doubles as it does
      here.
    - [Math.sqrt], [Math.sin], [Math.cos] and [Math.atan2] are not rational
      functions (ECMAScript calls their results implementation-approximated);
      they are taken as a parameter [JSMath] and every theorem holds for each
      interpretation of them.  Of [NaN] they make [NaN].
    - The constructor of [Inventory] registers its handlers on [bot.client],
      which the constructor of [MinecraftBot] only sets afterwards, in
      [_setupClient]: as written, [new MinecraftBot(options)] throws.  The
      embedding describes the bot the code sets out to build: the fields the
      constructors assign, and every handler they register, registered.
    - [client.write] appends to [written]; [this.emit] appends to [emitted]
      and runs the listeners the bot registered on itself.
    - A promise is an index into [promises]. *)

From Stdlib Require Import QArith Qround ZArith Ascii.
From stdpp Require Import gmap strings list pretty.

(** ** JavaScript numbers *)

Record JSMath := {
  Math_sqrt : Q → Q;
  Math_sin : Q → Q;
  Math_cos : Q → Q;
  Math_atan2 : Q → Q → Q
}.

(** A number: a rational, or [NaN].  Every operation that has [NaN] for an
    operand has [NaN] for its result. *)
Module Num.
Inductive t := fin (q : Q) | NaN.

Definition lift (f : Q → Q) (a : t) : t :=
  match a with
  | fin x => fin (f x)
  | NaN => NaN
  end.

Definition lift2 (f : Q → Q → Q) (a b : t) : t :=
  match a, b with
  | fin x, fin y => fin (f x y)
  | _, _ => NaN
  end.

Definition add : t → t → t := lift2 Qplus.
Definition sub : t → t → t := lift2 Qminus.
Definition mul : t → t → t := lift2 Qmult.
Definition opp : t → t := lift Qopp.

Definition is_fin (a : t) : bool :=
  match a with
  | fin _ => true
  | NaN => false
  end.

(** An integer literal. *)
Definition of_int (n : Number.int) : t :=
  match n with
  | Number.IntDecimal d => fin (inject_Z (Z.of_int d))
  | Number.IntHexadecimal h => fin (inject_Z (Z.of_hex_int h))
  end.
Definition to_int (a : t) : option Number.int := None.
End Num.

Coercion Num.fin : Q >-> Num.t.

Declare Scope num_scope.
Delimit Scope num_scope with num.
Bind Scope num_scope with Num.t.
Number Notation Num.t Num.of_int Num.to_int : num_scope.
Infix "+" := Num.add : num_scope.
Infix "-" := Num.sub : num_scope.
Infix "*" := Num.mul : num_scope.
Notation "- a" := (Num.opp a) : num_scope.

(** [a < b] and [a === b] on numbers: both are false when an operand is
    [NaN]. *)
Definition lt (a b : Num.t) : bool :=
  match a, b with
  | Num.fin x, Num.fin y => negb (Qle_bool y x)
  | _, _ => false
  end.
Definition strict_eq (a b : Num.t) : bool :=
  match a, b with
  | Num.fin x, Num.fin y => Qeq_bool x y
  | _, _ => false
  end.
Arguments lt : simpl never.
Arguments strict_eq : simpl never.

(** How a template literal spells a number.  An integer is spelled in
    decimal, as JS does; another rational is spelled as its reduced fraction
    (JS spells the shortest decimal of the double): both spellings determine
    the number, which is all a map key needs.  [NaN] is spelled [NaN]. *)
Definition Number_toString (a : Num.t) : string :=
  match a with
  | Num.fin q =>
      let r := Qred q in
      if Pos.eqb (Qden r) 1 then pretty (Qnum r)
      else pretty (Qnum r) +:+ "/" +:+ pretty (Qden r)
  | Num.NaN => "NaN"
  end.

(** [Math.sqrt(a)], [Math.sin(a)], [Math.cos(a)] and [Math.atan2(a, b)] *)
Module Math.
Definition sqrt (M : JSMath) : Num.t → Num.t := Num.lift (Math_sqrt M).
Definition sin (M : JSMath) : Num.t → Num.t := Num.lift (Math_sin M).
Definition cos (M : JSMath) : Num.t → Num.t := Num.lift (Math_cos M).
Definition atan2 (M : JSMath) : Num.t → Num.t → Num.t := Num.lift2 (Math_atan2 M).
End Math.

(** ** The [vec3] package (external; the methods the bot calls) *)

Module Vec3.
Record t := make { x : Num.t; y : Num.t; z : Num.t }.

Definition set (_ : t) (a b c : Num.t) : t := make a b c.
(** [p.add(other)]: [other] is a vector. *)
Definition add (p v : t) : t :=
  make (x p + x v) (y p + y v) (z p + z v).
(** [p.add(dx, dy, dz)] as the entity-move handler calls it.  [add] takes
    one vector and reads [other.x], [other.y] and [other.z] of it; its
    first argument here is the number [dx], of which each of them is
    [undefined], and the other two arguments are dropped.  A number plus
    [undefined] is [NaN]. *)
Definition add3 (p : t) (dx dy dz : Num.t) : t :=
  let undefined := Num.NaN in
  make (x p + undefined) (y p + undefined) (z p + undefined).
Definition minus (p v : t) : t :=
  make (x p - x v) (y p - y v) (z p - z v).
Definition offset (p : t) (dx dy dz : Num.t) : t :=
  make (x p + dx) (y p + dy) (z p + dz).
(** [p.distanceTo(v)] *)
Definition distanceTo (M : JSMath) (p v : t) : Num.t :=
  let d := minus v p in
  Math.sqrt M (x d * x d + y d * y d + z d * z d).
End Vec3.

Abbreviation vec3 := Vec3.make.

(** ** A JS [Map] with integer keys

    [Map] iterates in insertion order: [set] on a present key keeps its
    place, [set] on a new key appends, [delete] removes.
    [findNearestEntity] depends on that order (the first of several nearest
    entities wins), so the entity maps are association lists. *)

Module JSMap.
Section JSMap.
Context {V : Type}.

Definition t := list (Z * V).

Definition empty : t := [].

Fixpoint get (k : Z) (m : t) : option V :=
  match m with
  | [] => None
  | (k', v) :: m' => if Z.eqb k k' then Some v else get k m'
  end.

Fixpoint set (k : Z) (v : V) (m : t) : t :=
  match m with
  | [] => [(k, v)]
  | (k', v') :: m' =>
      if Z.eqb k k' then (k, v) :: m' else (k', v') :: set k v m'
  end.

Definition delete (k : Z) (m : t) : t :=
  filter (λ p, fst p ≠ k) m.

Definition values (m : t) : list V := map snd m.
End JSMap.
Arguments t : clear implicits.
End JSMap.

(** ** The data model *)

(** An inventory slot holds an item or [null]. *)
Record Item := {
  item_name : string;
  item_id : Z;
  item_count : Z
}.

(** [findItem] takes a name or a numeric id. *)
Inductive ItemKey :=
| ByName (name : string)
| ById (id : Z).

(** An object stored by [EntityTracker]: [spawn_entity] sets [type] and
    [velocity], [spawn_player] sets [uuid] and [name]; [metadata] is absent
    until [updateMetadata]. *)
Record Entity := {
  e_id : Z;
  e_type : option string;
  e_uuid : option string;
  e_name : option string;
  e_position : Vec3.t;
  e_velocity : option Vec3.t;
  e_yaw : Q;
  e_pitch : Q;
  e_metadata : option (list Z)
}.

Record Recipe := {
  ingredients : list (string * Z);
  result : string * Z;
  requiresCraftingTable : bool
}.

(** What [client.write] (and [client.end]) is called with. *)
Inductive Command :=
| w_chat (message : string)
| w_look (yaw pitch : Num.t) (onGround : option bool)
| w_use_entity (target action hand : Z)
| w_block_place (location : Vec3.t) (direction hand : Z) (cursorX cursorY cursorZ : Q)
| w_block_dig (status : Z) (location : Vec3.t) (face : Z)
| w_held_item_slot (slot : Z)
| w_window_click (windowId slot button action mode : Z) (item : option Item)
| w_close_window (windowId : Z)
| w_position (x y z : Num.t) (onGround : bool)
| c_end (reason : string).

(** What the bot emits on itself. *)
Inductive BotEvent :=
| ev_connect
| ev_disconnect (reason : string)
| ev_error (err : string)
| ev_position (position : Vec3.t)
| ev_chat (message sender : string)
| ev_health (health food : Q)
| ev_death
| ev_blockUpdate (pos : Vec3.t) (block : Z).

Inductive PromiseState :=
| Pending
| Fulfilled
| Rejected (message : string).

(** The closure [onBlockBreak] of one [mineBlock] call: the promise it
    resolves and the coordinates it captured. *)
Record DigListener := {
  dl_promise : nat;
  dl_x : Q;
  dl_y : Q;
  dl_z : Q
}.

(** How the synchronous part of a call ends, with the state it reached: it
    returns, it throws, or (in an [async] function) it is suspended at an
    [await] on a promise that is still pending. *)
Inductive Completion (A : Type) :=
| Return (a : A)
| Throw (message : string) (a : A)
| Await (a : A).
Arguments Return {A} a.
Arguments Throw {A} message a.
Arguments Await {A} a.

Record Inventory := {
  slots : list (option Item);
  (** properties of the array at keys that are not indices ([slots[-1]]) *)
  slot_props : gmap Z (option Item);
  selectedSlot : Z
}.

Record World := {
  blocks : gmap string Z;
  chunkLoaded : gset string
}.

(** The entity objects live in [objects]; a reference is an index into it.
    [spawn_player] stores one reference in both maps. *)
Record EntityTracker := {
  objects : list Entity;
  entities : JSMap.t nat;
  players : JSMap.t nat
}.

Record Physics := {
  gravity : Q;
  jumpSpeed : Q;
  jumpCooldown : Z
}.

Record Crafting := {
  recipes : gmap string Recipe;
  craftingTablePos : option Vec3.t
}.

Record Combat := {
  target : option nat;
  attackCooldown : Z
}.

Record Bot := {
  connected : bool;
  position : Vec3.t;
  velocity : Vec3.t;
  yaw : Num.t;
  pitch : Num.t;
  onGround : option bool;
  health : Q;
  food : Q;
  foodSaturation : option Q;
  inventory : Inventory;
  world : World;
  bot_entities : EntityTracker;
  physics : Physics;
  crafting : Crafting;
  combat : Combat;
  (** the protocol client: what was written to it, oldest first *)
  written : list Command;
  (** the event emitter: what was emitted, and the listeners the bot itself
      registered, in registration order *)
  emitted : list BotEvent;
  blockUpdate_listeners : list DigListener;
  window_open_listeners : list nat;
  (** the event loop: pending [setTimeout] callbacks of [mineBlock] (delay
      and dig location), and the promises handed out *)
  timeouts : list (Z * Vec3.t);
  promises : list PromiseState
}.

(** ** Field updates

    [set_f v b] is [b] after the assignment [this.f = v]. *)

Definition set_connected (v : bool) (b : Bot) : Bot :=
  {| connected := v; position := position b; velocity := velocity b; yaw := yaw b;
     pitch := pitch b; onGround := onGround b; health := health b; food := food b;
     foodSaturation := foodSaturation b; inventory := inventory b; world := world b;
     bot_entities := bot_entities b; physics := physics b; crafting := crafting b;
     combat := combat b; written := written b; emitted := emitted b;
     blockUpdate_listeners := blockUpdate_listeners b;
     window_open_listeners := window_open_listeners b; timeouts := timeouts b;
     promises := promises b |}.

Definition set_position (v : Vec3.t) (b : Bot) : Bot :=
  {| connected := connected b; position := v; velocity := velocity b; yaw := yaw b;
     pitch := pitch b; onGround := onGround b; health := health b; food := food b;
     foodSaturation := foodSaturation b; inventory := inventory b; world := world b;
     bot_entities := bot_entities b; physics := physics b; crafting := crafting b;
     combat := combat b; written := written b; emitted := emitted b;
     blockUpdate_listeners := blockUpdate_listeners b;
     window_open_listeners := window_open_listeners b; timeouts := timeouts b;
     promises := promises b |}.

Definition set_velocity (v : Vec3.t) (b : Bot) : Bot :=
  {| connected := connected b; position := position b; velocity := v; yaw := yaw b;
     pitch := pitch b; onGround := onGround b; health := health b; food := food b;
     foodSaturation := foodSaturation b; inventory := inventory b; world := world b;
     bot_entities := bot_entities b; physics := physics b; crafting := crafting b;
     combat := combat b; written := written b; emitted := emitted b;
     blockUpdate_listeners := blockUpdate_listeners b;
     window_open_listeners := window_open_listeners b; timeouts := timeouts b;
     promises := promises b |}.

Definition set_yaw (v : Num.t) (b : Bot) : Bot :=
  {| connected := connected b; position := position b; velocity := velocity b;
     yaw := v; pitch := pitch b; onGround := onGround b; health := health b;
     food := food b; foodSaturation := foodSaturation b; inventory := inventory b;
     world := world b; bot_entities := bot_entities b; physics := physics b;
     crafting := crafting b; combat := combat b; written := written b;
     emitted := emitted b; blockUpdate_listeners := blockUpdate_listeners b;
     window_open_listeners := window_open_listeners b; timeouts := timeouts b;
     promises := promises b |}.

Definition set_pitch (v : Num.t) (b : Bot) : Bot :=
  {| connected := connected b; position := position b; velocity := velocity b;
     yaw := yaw b; pitch := v; onGround := onGround b; health := health b;
     food := food b; foodSaturation := foodSaturation b; inventory := inventory b;
     world := world b; bot_entities := bot_entities b; physics := physics b;
     crafting := crafting b; combat := combat b; written := written b;
     emitted := emitted b; blockUpdate_listeners := blockUpdate_listeners b;
     window_open_listeners := window_open_listeners b; timeouts := timeouts b;
     promises := promises b |}.

Definition set_onGround (v : option bool) (b : Bot) : Bot :=
  {| connected := connected b; position := position b; velocity := velocity b;
     yaw := yaw b; pitch := pitch b; onGround := v; health := health b; food := food b;
     foodSaturation := foodSaturation b; inventory := inventory b; world := world b;
     bot_entities := bot_entities b; physics := physics b; crafting := crafting b;
     combat := combat b; written := written b; emitted := emitted b;
     blockUpdate_listeners := blockUpdate_listeners b;
     window_open_listeners := window_open_listeners b; timeouts := timeouts b;
     promises := promises b |}.

Definition set_health (v : Q) (b : Bot) : Bot :=
  {| connected := connected b; position := position b; velocity := velocity b;
     yaw := yaw b; pitch := pitch b; onGround := onGround b; health := v;
     food := food b; foodSaturation := foodSaturation b; inventory := inventory b;
     world := world b; bot_entities := bot_entities b; physics := physics b;
     crafting := crafting b; combat := combat b; written := written b;
     emitted := emitted b; blockUpdate_listeners := blockUpdate_listeners b;
     window_open_listeners := window_open_listeners b; timeouts := timeouts b;
     promises := promises b |}.

Definition set_food (v : Q) (b : Bot) : Bot :=
  {| connected := connected b; position := position b; velocity := velocity b;
     yaw := yaw b; pitch := pitch b; onGround := onGround b; health := health b;
     food := v; foodSaturation := foodSaturation b; inventory := inventory b;
     world := world b; bot_entities := bot_entities b; physics := physics b;
     crafting := crafting b; combat := combat b; written := written b;
     emitted := emitted b; blockUpdate_listeners := blockUpdate_listeners b;
     window_open_listeners := window_open_listeners b; timeouts := timeouts b;
     promises := promises b |}.

Definition set_foodSaturation (v : option Q) (b : Bot) : Bot :=
  {| connected := connected b; position := position b; velocity := velocity b;
     yaw := yaw b; pitch := pitch b; onGround := onGround b; health := health b;
     food := food b; foodSaturation := v; inventory := inventory b; world := world b;
     bot_entities := bot_entities b; physics := physics b; crafting := crafting b;
     combat := combat b; written := written b; emitted := emitted b;
     blockUpdate_listeners := blockUpdate_listeners b;
     window_open_listeners := window_open_listeners b; timeouts := timeouts b;
     promises := promises b |}.

Definition set_inventory (v : Inventory) (b : Bot) : Bot :=
  {| connected := connected b; position := position b; velocity := velocity b;
     yaw := yaw b; pitch := pitch b; onGround := onGround b; health := health b;
     food := food b; foodSaturation := foodSaturation b; inventory := v;
     world := world b; bot_entities := bot_entities b; physics := physics b;
     crafting := crafting b; combat := combat b; written := written b;
     emitted := emitted b; blockUpdate_listeners := blockUpdate_listeners b;
     window_open_listeners := window_open_listeners b; timeouts := timeouts b;
     promises := promises b |}.

Definition set_world (v : World) (b : Bot) : Bot :=
  {| connected := connected b; position := position b; velocity := velocity b;
     yaw := yaw b; pitch := pitch b; onGround := onGround b; health := health b;
     food := food b; foodSaturation := foodSaturation b; inventory := inventory b;
     world := v; bot_entities := bot_entities b; physics := physics b;
     crafting := crafting b; combat := combat b; written := written b;
     emitted := emitted b; blockUpdate_listeners := blockUpdate_listeners b;
     window_open_listeners := window_open_listeners b; timeouts := timeouts b;
     promises := promises b |}.

Definition set_bot_entities (v : EntityTracker) (b : Bot) : Bot :=
  {| connected := connected b; position := position b; velocity := velocity b;
     yaw := yaw b; pitch := pitch b; onGround := onGround b; health := health b;
     food := food b; foodSaturation := foodSaturation b; inventory := inventory b;
     world := world b; bot_entities := v; physics := physics b; crafting := crafting b;
     combat := combat b; written := written b; emitted := emitted b;
     blockUpdate_listeners := blockUpdate_listeners b;
     window_open_listeners := window_open_listeners b; timeouts := timeouts b;
     promises := promises b |}.

Definition set_physics (v : Physics) (b : Bot) : Bot :=
  {| connected := connected b; position := position b; velocity := velocity b;
     yaw := yaw b; pitch := pitch b; onGround := onGround b; health := health b;
     food := food b; foodSaturation := foodSaturation b; inventory := inventory b;
     world := world b; bot_entities := bot_entities b; physics := v;
     crafting := crafting b; combat := combat b; written := written b;
     emitted := emitted b; blockUpdate_listeners := blockUpdate_listeners b;
     window_open_listeners := window_open_listeners b; timeouts := timeouts b;
     promises := promises b |}.

Definition set_crafting (v : Crafting) (b : Bot) : Bot :=
  {| connected := connected b; position := position b; velocity := velocity b;
     yaw := yaw b; pitch := pitch b; onGround := onGround b; health := health b;
     food := food b; foodSaturation := foodSaturation b; inventory := inventory b;
     world := world b; bot_entities := bot_entities b; physics := physics b;
     crafting := v; combat := combat b; written := written b; emitted := emitted b;
     blockUpdate_listeners := blockUpdate_listeners b;
     window_open_listeners := window_open_listeners b; timeouts := timeouts b;
     promises := promises b |}.

Definition set_combat (v : Combat) (b : Bot) : Bot :=
  {| connected := connected b; position := position b; velocity := velocity b;
     yaw := yaw b; pitch := pitch b; onGround := onGround b; health := health b;
     food := food b; foodSaturation := foodSaturation b; inventory := inventory b;
     world := world b; bot_entities := bot_entities b; physics := physics b;
     crafting := crafting b; combat := v; written := written b; emitted := emitted b;
     blockUpdate_listeners := blockUpdate_listeners b;
     window_open_listeners := window_open_listeners b; timeouts := timeouts b;
     promises := promises b |}.

Definition set_written (v : list Command) (b : Bot) : Bot :=
  {| connected := connected b; position := position b; velocity := velocity b;
     yaw := yaw b; pitch := pitch b; onGround := onGround b; health := health b;
     food := food b; foodSaturation := foodSaturation b; inventory := inventory b;
     world := world b; bot_entities := bot_entities b; physics := physics b;
     crafting := crafting b; combat := combat b; written := v; emitted := emitted b;
     blockUpdate_listeners := blockUpdate_listeners b;
     window_open_listeners := window_open_listeners b; timeouts := timeouts b;
     promises := promises b |}.

Definition set_emitted (v : list BotEvent) (b : Bot) : Bot :=
  {| connected := connected b; position := position b; velocity := velocity b;
     yaw := yaw b; pitch := pitch b; onGround := onGround b; health := health b;
     food := food b; foodSaturation := foodSaturation b; inventory := inventory b;
     world := world b; bot_entities := bot_entities b; physics := physics b;
     crafting := crafting b; combat := combat b; written := written b; emitted := v;
     blockUpdate_listeners := blockUpdate_listeners b;
     window_open_listeners := window_open_listeners b; timeouts := timeouts b;
     promises := promises b |}.

Definition set_blockUpdate_listeners (v : list DigListener) (b : Bot) : Bot :=
  {| connected := connected b; position := position b; velocity := velocity b;
     yaw := yaw b; pitch := pitch b; onGround := onGround b; health := health b;
     food := food b; foodSaturation := foodSaturation b; inventory := inventory b;
     world := world b; bot_entities := bot_entities b; physics := physics b;
     crafting := crafting b; combat := combat b; written := written b;
     emitted := emitted b; blockUpdate_listeners := v;
     window_open_listeners := window_open_listeners b; timeouts := timeouts b;
     promises := promises b |}.

Definition set_window_open_listeners (v : list nat) (b : Bot) : Bot :=
  {| connected := connected b; position := position b; velocity := velocity b;
     yaw := yaw b; pitch := pitch b; onGround := onGround b; health := health b;
     food := food b; foodSaturation := foodSaturation b; inventory := inventory b;
     world := world b; bot_entities := bot_entities b; physics := physics b;
     crafting := crafting b; combat := combat b; written := written b;
     emitted := emitted b; blockUpdate_listeners := blockUpdate_listeners b;
     window_open_listeners := v; timeouts := timeouts b; promises := promises b |}.

Definition set_timeouts (v : list (Z * Vec3.t)) (b : Bot) : Bot :=
  {| connected := connected b; position := position b; velocity := velocity b;
     yaw := yaw b; pitch := pitch b; onGround := onGround b; health := health b;
     food := food b; foodSaturation := foodSaturation b; inventory := inventory b;
     world := world b; bot_entities := bot_entities b; physics := physics b;
     crafting := crafting b; combat := combat b; written := written b;
     emitted := emitted b; blockUpdate_listeners := blockUpdate_listeners b;
     window_open_listeners := window_open_listeners b; timeouts := v;
     promises := promises b |}.

Definition set_promises (v : list PromiseState) (b : Bot) : Bot :=
  {| connected := connected b; position := position b; velocity := velocity b;
     yaw := yaw b; pitch := pitch b; onGround := onGround b; health := health b;
     food := food b; foodSaturation := foodSaturation b; inventory := inventory b;
     world := world b; bot_entities := bot_entities b; physics := physics b;
     crafting := crafting b; combat := combat b; written := written b;
     emitted := emitted b; blockUpdate_listeners := blockUpdate_listeners b;
     window_open_listeners := window_open_listeners b; timeouts := timeouts b;
     promises := v |}.

(** ** The client, the emitter and promises *)

(** [this.client.write(name, params)] *)
Definition write (c : Command) (b : Bot) : Bot :=
  set_written (written b ++ [c]) b.

(** [this.emit(name, ...)] for an event the bot has no listener of its own
    for. *)
Definition emit (e : BotEvent) (b : Bot) : Bot :=
  set_emitted (emitted b ++ [e]) b.

(** [new Promise(...)], or the promise an [async] call returns. *)
Definition new_promise (b : Bot) : nat * Bot :=
  (length (promises b), set_promises (promises b ++ [Pending]) b).

(** Settling a promise; a promise settles once. *)
Definition settle (p : nat) (s : PromiseState) (b : Bot) : Bot :=
  match promises b !! p with
  | Some Pending => set_promises (<[p := s]> (promises b)) b
  | _ => b
  end.

(** ** class World *)

Module World.

(** [`${position.x},${position.y},${position.z}`] *)
Definition key (position : Vec3.t) : string :=
  Number_toString (Vec3.x position) +:+ "," +:+
  Number_toString (Vec3.y position) +:+ "," +:+
  Number_toString (Vec3.z position).

Definition setBlock (position : Vec3.t) (blockType : Z) (w : World) : World :=
  {| blocks := <[key position := blockType]> (blocks w);
     chunkLoaded := chunkLoaded w |}.

(** [this.blocks.get(key) || 0] *)
Definition getBlock (position : Vec3.t) (w : World) : Z :=
  default 0%Z (blocks w !! key position).

Definition getDigTime (position : Vec3.t) (w : World) : Z :=
  let block := getBlock position w in
  1000%Z.

Definition isWalkable (position : Vec3.t) (w : World) : bool :=
  let block := getBlock position w in
  let blockAbove := getBlock (Vec3.offset position 0 1 0) w in
  let blockBelow := getBlock (Vec3.offset position 0 (-1) 0) w in
  Z.eqb block 0 && Z.eqb blockAbove 0 && negb (Z.eqb blockBelow 0).

(** the [map_chunk] handler; [_processChunkData] does nothing *)
Definition on_map_chunk (chunkX chunkZ : Z) (w : World) : World :=
  {| blocks := blocks w;
     chunkLoaded := {[ pretty chunkX +:+ "," +:+ pretty chunkZ ]} ∪ chunkLoaded w |}.

End World.

(** ** class Inventory *)

Module Inventory.

(** [item.name === itemName || item.id === itemName] *)
Definition matches (itemName : ItemKey) (item : Item) : bool :=
  match itemName with
  | ByName n => String.eqb (item_name item) n
  | ById i => Z.eqb (item_id item) i
  end.

(** the loop of [findItem], from index [i] on *)
Fixpoint findItem_from (i : nat) (l : list (option Item)) (itemName : ItemKey)
    : option (Item * nat) :=
  match l with
  | [] => None
  | Some item :: l' =>
      if matches itemName item then Some (item, i)
      else findItem_from (S i) l' itemName
  | None :: l' => findItem_from (S i) l' itemName
  end.

Definition findItem (itemName : ItemKey) (inv : Inventory) : option (Item * nat) :=
  findItem_from 0 (slots inv) itemName.

(** [this.slots[i]] *)
Definition slot_at (i : Z) (inv : Inventory) : option Item :=
  if Z.leb 0 i then mjoin (slots inv !! Z.to_nat i)
  else mjoin (slot_props inv !! i).

(** the [window_items] handler: [this.slots = packet.items] *)
Definition on_window_items (items : list (option Item)) (inv : Inventory) : Inventory :=
  {| slots := items; slot_props := ∅; selectedSlot := selectedSlot inv |}.

(** the [set_slot] handler: [this.slots[packet.slot] = packet.item]; an
    index past the end extends the array, a negative one sets a property *)
Definition on_set_slot (i : Z) (item : option Item) (inv : Inventory) : Inventory :=
  if Z.leb 0 i then
    let n := Z.to_nat i in
    {| slots :=
         if decide (n < length (slots inv))%nat then <[n := item]> (slots inv)
         else slots inv ++ replicate (n - length (slots inv)) None ++ [item];
       slot_props := slot_props inv;
       selectedSlot := selectedSlot inv |}
  else
    {| slots := slots inv;
       slot_props := <[i := item]> (slot_props inv);
       selectedSlot := selectedSlot inv |}.

Definition selectSlot (slot : Z) (b : Bot) : Completion Bot :=
  if Z.ltb slot 0 || Z.ltb 8 slot then
    Throw "Hotbar slots must be between 0 and 8" b
  else
    let inv := inventory b in
    let b := set_inventory {| slots := slots inv; slot_props := slot_props inv;
                              selectedSlot := slot |} b in
    Return (write (w_held_item_slot slot) b).

Definition moveItem (fromSlot toSlot : Z) (b : Bot) : Bot :=
  let b := write (w_window_click 0 fromSlot 0 0 0 (slot_at fromSlot (inventory b))) b in
  write (w_window_click 0 toSlot 0 0 0 (slot_at fromSlot (inventory b))) b.

Definition dropItem (i : Z) (fullStack : bool) (b : Bot) : Bot :=
  write (w_window_click 0 i (if fullStack then 1 else 0) 4 4 (slot_at i (inventory b))) b.

End Inventory.

(** ** class EntityTracker *)

Module EntityTracker.

Definition set_position (p : Vec3.t) (e : Entity) : Entity :=
  {| e_id := e_id e; e_type := e_type e; e_uuid := e_uuid e; e_name := e_name e;
     e_position := p; e_velocity := e_velocity e; e_yaw := e_yaw e;
     e_pitch := e_pitch e; e_metadata := e_metadata e |}.

Definition set_metadata (m : list Z) (e : Entity) : Entity :=
  {| e_id := e_id e; e_type := e_type e; e_uuid := e_uuid e; e_name := e_name e;
     e_position := e_position e; e_velocity := e_velocity e; e_yaw := e_yaw e;
     e_pitch := e_pitch e; e_metadata := Some m |}.

(** the [spawn_entity] handler: a new object, stored under its id *)
Definition on_spawn_entity (entityId : Z) (type : string)
    (x y z velocityX velocityY velocityZ yaw pitch : Q) (t : EntityTracker)
    : EntityTracker :=
  let r := length (objects t) in
  {| objects := objects t ++
       [ {| e_id := entityId; e_type := Some type; e_uuid := None; e_name := None;
            e_position := vec3 x y z;
            e_velocity := Some (vec3 velocityX velocityY velocityZ);
            e_yaw := yaw; e_pitch := pitch; e_metadata := None |} ];
     entities := JSMap.set entityId r (entities t);
     players := players t |}.

(** the [spawn_player] handler: a new object, stored under its id in
    [players] and, the same object, in [entities] *)
Definition on_spawn_player (entityId : Z) (uuid name : string)
    (x y z yaw pitch : Q) (t : EntityTracker) : EntityTracker :=
  let r := length (objects t) in
  {| objects := objects t ++
       [ {| e_id := entityId; e_type := None; e_uuid := Some uuid;
            e_name := Some name; e_position := vec3 x y z; e_velocity := None;
            e_yaw := yaw; e_pitch := pitch; e_metadata := None |} ];
     entities := JSMap.set entityId r (entities t);
     players := JSMap.set entityId r (players t) |}.

(** the body of the loop of the [entity_destroy] handler *)
Definition destroy (t : EntityTracker) (entityId : Z) : EntityTracker :=
  {| objects := objects t;
     entities := JSMap.delete entityId (entities t);
     players := JSMap.delete entityId (players t) |}.

Definition on_entity_destroy (entityIds : list Z) (t : EntityTracker) : EntityTracker :=
  fold_left destroy entityIds t.

(** the [entity_move] handler *)
Definition on_entity_move (entityId : Z) (dX dY dZ : Q) (t : EntityTracker)
    : EntityTracker :=
  match JSMap.get entityId (entities t) with
  | Some r =>
      match objects t !! r with
      | Some entity =>
          let p := Vec3.add3 (e_position entity)
                     (dX / 32)%Q (dY / 32)%Q (dZ / 32)%Q in
          {| objects := <[r := set_position p entity]> (objects t);
             entities := entities t; players := players t |}
      | None => t
      end
  | None => t
  end.

Definition updateMetadata (entityId : Z) (metadata : list Z) (t : EntityTracker)
    : EntityTracker :=
  match JSMap.get entityId (entities t) with
  | Some r =>
      match objects t !! r with
      | Some entity =>
          {| objects := <[r := set_metadata metadata entity]> (objects t);
             entities := entities t; players := players t |}
      | None => t
      end
  | None => t
  end.

(** [distance < nearestDistance], where [None] is [Infinity]: every
    rational is less than [Infinity], and [NaN] is not. *)
Definition nearer (distance : Num.t) (nearestDistance : option Num.t) : bool :=
  match nearestDistance with
  | None => Num.is_fin distance
  | Some d => lt distance d
  end.

(** The loop shared by [findNearestEntity] and [findNearestPlayer], over the
    references [refs] a map iterates; [keep] is the type filter. *)
Fixpoint nearest (M : JSMath) (objs : list Entity) (botPosition : Vec3.t)
    (keep : Entity → bool) (refs : list nat)
    (nearestEntity : option nat) (nearestDistance : option Num.t) : option nat :=
  match refs with
  | [] => nearestEntity
  | r :: refs' =>
      match objs !! r with
      | Some entity =>
          if keep entity then
            let distance := Vec3.distanceTo M (e_position entity) botPosition in
            if nearer distance nearestDistance
            then nearest M objs botPosition keep refs' (Some r) (Some distance)
            else nearest M objs botPosition keep refs' nearestEntity nearestDistance
          else nearest M objs botPosition keep refs' nearestEntity nearestDistance
      | None => nearest M objs botPosition keep refs' nearestEntity nearestDistance
      end
  end.

(** [types.includes(entity.type)] *)
Definition includes (types : list string) (entity : Entity) : bool :=
  match e_type entity with
  | Some ty => bool_decide (ty ∈ types)
  | None => false
  end.

(** [findNearestEntity(type, maxDistance)]: [types] is [type] as an array,
    [maxDistance = None] is [Infinity] (the default); the result is a
    reference or [null]. *)
Definition findNearestEntity (M : JSMath) (types : list string)
    (maxDistance : option Q) (b : Bot) : option nat :=
  let t := bot_entities b in
  nearest M (objects t) (position b) (includes types)
    (JSMap.values (entities t)) None (Num.fin <$> maxDistance).

Definition findNearestPlayer (M : JSMath) (maxDistance : option Q) (b : Bot)
    : option nat :=
  let t := bot_entities b in
  nearest M (objects t) (position b) (λ _, true)
    (JSMap.values (players t)) None (Num.fin <$> maxDistance).

End EntityTracker.

(** ** class MinecraftBot: methods *)

Module MinecraftBot.

Definition chat (message : string) (b : Bot) : Bot :=
  write (w_chat message) b.

Definition lookAt (M : JSMath) (x y z : Num.t) (b : Bot) : Bot :=
  let target := vec3 x y z in
  let delta := Vec3.minus target (position b) in
  let b := set_yaw (Math.atan2 M (- Vec3.x delta) (- Vec3.z delta)) b in
  let groundDistance :=
    Math.sqrt M (Vec3.x delta * Vec3.x delta + Vec3.z delta * Vec3.z delta) in
  let b := set_pitch (Math.atan2 M (Vec3.y delta) groundDistance) b in
  write (w_look (yaw b) (pitch b) (onGround b)) b.

Definition attack (entityId : Z) (b : Bot) : Bot :=
  write (w_use_entity entityId 1 0) b.

Definition placeBlock (x y z : Q) (face : Z) (b : Bot) : Bot :=
  write (w_block_place (vec3 x y z) face 0 (1 # 2) (1 # 2) (1 # 2)) b.

(** [this.removeListener('blockUpdate', onBlockBreak)]: each call of
    [mineBlock] makes its own closure, named here by its promise. *)
Definition removeListener (l : DigListener) (b : Bot) : Bot :=
  set_blockUpdate_listeners
    (filter (λ l', dl_promise l' ≠ dl_promise l) (blockUpdate_listeners b)) b.

(** [pos.x === x && pos.y === y && pos.z === z], with the coordinates the
    closure [l] captured *)
Definition same_block (pos : Vec3.t) (l : DigListener) : bool :=
  strict_eq (Vec3.x pos) (dl_x l) && strict_eq (Vec3.y pos) (dl_y l)
  && strict_eq (Vec3.z pos) (dl_z l).

(** the closure [onBlockBreak], called with the position of a block update *)
Definition onBlockBreak (pos : Vec3.t) (b : Bot) (l : DigListener) : Bot :=
  if same_block pos l
  then settle (dl_promise l) Fulfilled (removeListener l b)
  else b.

(** [this.emit('blockUpdate', pos, block)]: the listeners registered when
    the event is emitted are called in registration order. *)
Definition emit_blockUpdate (pos : Vec3.t) (block : Z) (b : Bot) : Bot :=
  fold_left (onBlockBreak pos) (blockUpdate_listeners b)
    (emit (ev_blockUpdate pos block) b).

(** [mineBlock(x, y, z)] up to its [await]: the start-dig command, the
    listener, the timeout.  The result is the promise the call returns; the
    only statement after the [await] is the end of the function. *)
Definition mineBlock (x y z : Q) (b : Bot) : nat * Bot :=
  let position := vec3 x y z in
  let b := write (w_block_dig 0 position 1) b in
  let '(p, b) := new_promise b in
  let b := set_blockUpdate_listeners
             (blockUpdate_listeners b ++
                [ {| dl_promise := p; dl_x := x; dl_y := y; dl_z := z |} ]) b in
  let b := set_timeouts
             (timeouts b ++ [ (World.getDigTime position (world b), position) ]) b in
  (p, b).

(** The oldest pending timeout of [mineBlock] fires: the finish-dig
    command. *)
Definition timeout_fires (b : Bot) : Bot :=
  match timeouts b with
  | [] => b
  | (_, position) :: rest =>
      write (w_block_dig 2 position 1) (set_timeouts rest b)
  end.

Definition disconnect (reason : string) (b : Bot) : Bot :=
  if connected b then write (c_end reason) b else b.

(** *** The handlers of [_setupClient] and [_registerPacketHandlers] *)

Definition on_connect (b : Bot) : Bot :=
  emit ev_connect (set_connected true b).

Definition on_disconnect (reason : string) (b : Bot) : Bot :=
  emit (ev_disconnect reason) (set_connected false b).

(** (Node throws when [error] is emitted and nobody listens; the script is
    taken to listen.) *)
Definition on_error (err : string) (b : Bot) : Bot :=
  emit (ev_error err) b.

Definition on_position (x y z yaw pitch : Q) (onGround : bool) (b : Bot) : Bot :=
  let b := set_position (Vec3.set (position b) x y z) b in
  let b := set_yaw yaw b in
  let b := set_pitch pitch b in
  let b := set_onGround (Some onGround) b in
  emit (ev_position (position b)) b.

Definition on_chat (message sender : string) (b : Bot) : Bot :=
  emit (ev_chat message sender) b.

Definition on_entity_metadata (entityId : Z) (metadata : list Z) (b : Bot) : Bot :=
  set_bot_entities (EntityTracker.updateMetadata entityId metadata (bot_entities b)) b.

Definition on_health (health' food' foodSaturation' : Q) (b : Bot) : Bot :=
  let b := set_health health' b in
  let b := set_food food' b in
  let b := set_foodSaturation (Some foodSaturation') b in
  let b := emit (ev_health (health b) (food b)) b in
  if Qle_bool (health b) 0 then emit ev_death b else b.

Definition on_block_change (x y z : Q) (type : Z) (b : Bot) : Bot :=
  let pos := vec3 x y z in
  let block := type in
  let b := set_world (World.setBlock pos block (world b)) b in
  emit_blockUpdate pos block b.

End MinecraftBot.

(** ** class Physics *)

Module Physics.

Definition set_jumpCooldown (n : Z) (b : Bot) : Bot :=
  set_physics {| gravity := gravity (physics b); jumpSpeed := jumpSpeed (physics b);
                 jumpCooldown := n |} b.

Definition set_velocity_y (vy : Num.t) (b : Bot) : Bot :=
  set_velocity (vec3 (Vec3.x (velocity b)) vy (Vec3.z (velocity b))) b.

Definition _isOnGround (b : Bot) : bool :=
  let blockBelow :=
    World.getBlock (Vec3.offset (position b) 0 (- (1 # 10))%Q 0) (world b) in
  negb (Z.eqb blockBelow 0).

Definition _sendPositionUpdate (b : Bot) : Bot :=
  write (w_position (Vec3.x (position b)) (Vec3.y (position b))
           (Vec3.z (position b)) (_isOnGround b)) b.

Definition _update (b : Bot) : Bot :=
  if negb (connected b) then b
  else
    (* Apply gravity *)
    let b :=
      if negb (_isOnGround b) then
        set_velocity_y (Vec3.y (velocity b) + gravity (physics b)) b
      else if lt (Vec3.y (velocity b)) 0 then set_velocity_y 0 b
      else b in
    (* Update position based on velocity *)
    let b := set_position (Vec3.add (position b) (velocity b)) b in
    (* Update jump cooldown *)
    let b :=
      if Z.ltb 0 (jumpCooldown (physics b))
      then set_jumpCooldown (jumpCooldown (physics b) - 1) b
      else b in
    _sendPositionUpdate b.

Definition jump (b : Bot) : Bot :=
  if _isOnGround b && Z.eqb (jumpCooldown (physics b)) 0 then
    set_jumpCooldown 10 (set_velocity_y (jumpSpeed (physics b)) b)
  else b.

Definition move (M : JSMath) (x z : Q) (sprint : bool) (b : Bot) : Bot :=
  let speed := (if sprint then 13 # 100 else 1 # 10)%Q in
  let yaw := yaw b in
  let vx := ((x * Math.sin M yaw - z * Math.cos M yaw) * speed)%num in
  let b := set_velocity (vec3 vx (Vec3.y (velocity b)) (Vec3.z (velocity b))) b in
  let vz := ((z * Math.sin M yaw + x * Math.cos M yaw) * speed)%num in
  set_velocity (vec3 (Vec3.x (velocity b)) (Vec3.y (velocity b)) vz) b.

End Physics.

(** ** class Crafting *)

Module Crafting.

Definition _loadRecipes : gmap string Recipe :=
  <[ "stick" := {| ingredients := [("planks", 2%Z)];
                   result := ("stick", 4%Z);
                   requiresCraftingTable := false |} ]> ∅.

(** The loop that checks the ingredients: the first ingredient that is not
    found, or of which the stack found is too small, if there is one. *)
Fixpoint missing_ingredient (count : Z) (inv : Inventory)
    (ings : list (string * Z)) : option string :=
  match ings with
  | [] => None
  | (item, n) :: rest =>
      match Inventory.findItem (ByName item) inv with
      | None => Some item
      | Some (found, _) =>
          if Z.ltb (item_count found) (n * count) then Some item
          else missing_ingredient count inv rest
      end
  end.

(** The loop that places the ingredients, from index [i] on. *)
Fixpoint place_ingredients (windowId : Z) (i : Z) (ings : list (string * Z))
    (b : Bot) : Completion Bot :=
  match ings with
  | [] => Return b
  | (item, _) :: rest =>
      match Inventory.findItem (ByName item) (inventory b) with
      | None => Throw "TypeError: Cannot read properties of null" b
      | Some (found, slot) =>
          place_ingredients windowId (i + 1) rest
            (write (w_window_click windowId (Z.of_nat slot) 0 i 0 (Some found)) b)
      end
  end.

(** [_openCraftingTable()] up to its first pending [await].  Past 3 blocks
    it waits for [moveTo], which is the external pathfinder's; within reach
    it right-clicks the table and waits for a [window_open] event on the
    bot, which nothing in [mcbs.js] emits.  [p] is the promise of the
    [craft] call that waits. *)
Definition _openCraftingTable (M : JSMath) (p : nat) (b : Bot) : Completion Bot :=
  match craftingTablePos (crafting b) with
  | None => Throw "No crafting table position set" b
  | Some pos =>
      let distance := Vec3.distanceTo M (position b) pos in
      if lt 3 distance then Await b
      else
        let b := write (w_block_place (vec3 (Vec3.x pos) (Vec3.y pos) (Vec3.z pos))
                          1 0 (1 # 2) (1 # 2) (1 # 2)) b in
        Await (set_window_open_listeners (window_open_listeners b ++ [p]) b)
  end.

(** The body of [craft(itemName, count)] up to its first pending [await]. *)
Definition craft_body (M : JSMath) (p : nat) (itemName : string) (count : Z)
    (b : Bot) : Completion Bot :=
  match recipes (crafting b) !! itemName with
  | None => Throw ("Unknown recipe: " +:+ itemName) b
  | Some recipe =>
      if requiresCraftingTable recipe
         && negb (bool_decide (is_Some (craftingTablePos (crafting b))))
      then Throw "Crafting table required but not found" b
      else
        (* Check if we have the ingredients *)
        match missing_ingredient count (inventory b) (ingredients recipe) with
        | Some item => Throw ("Missing ingredient: " +:+ item) b
        | None =>
            (* Open crafting table if needed *)
            if requiresCraftingTable recipe then _openCraftingTable M p b
            else
              (* Place ingredients, click result *)
              match place_ingredients 0 0 (ingredients recipe) b with
              | Return b =>
                  Return (write (w_window_click 0 0 0
                                   (Z.of_nat (length (ingredients recipe))) 0 None) b)
              | other => other
              end
        end
  end.

(** [craft(itemName, count)]: the promise it returns, fulfilled when the
    body returns, rejected when it throws, pending when it is suspended. *)
Definition craft (M : JSMath) (itemName : string) (count : Z) (b : Bot)
    : nat * Bot :=
  let '(p, b) := new_promise b in
  match craft_body M p itemName count b with
  | Return b => (p, settle p Fulfilled b)
  | Throw message b => (p, settle p (Rejected message) b)
  | Await b => (p, b)
  end.

Definition setCraftingTablePosition (x y z : Q) (b : Bot) : Bot :=
  set_crafting {| recipes := recipes (crafting b);
                  craftingTablePos := Some (vec3 x y z) |} b.

End Crafting.

(** ** class Combat *)

Module Combat.

Definition set_target (t : option nat) (b : Bot) : Bot :=
  set_combat {| target := t; attackCooldown := attackCooldown (combat b) |} b.

Definition set_attackCooldown (n : Z) (b : Bot) : Bot :=
  set_combat {| target := target (combat b); attackCooldown := n |} b.

Definition _update (M : JSMath) (b : Bot) : Bot :=
  if negb (connected b) then b
  else
    match target (combat b) with
    | None => b
    | Some t =>
        match objects (bot_entities b) !! t with
        | None => b
        | Some target =>
            (* Check if target still exists *)
            match JSMap.get (e_id target) (entities (bot_entities b)) with
            | None => set_target None b
            | Some r =>
                match objects (bot_entities b) !! r with
                | None => b
                | Some entity =>
                    let distance :=
                      Vec3.distanceTo M (e_position entity) (position b) in
                    if lt 3 distance then
                      let b := Physics.move M 0 1 true b in
                      MinecraftBot.lookAt M (Vec3.x (e_position entity))
                        (Vec3.y (e_position entity) + 1)
                        (Vec3.z (e_position entity)) b
                    else if Z.eqb (attackCooldown (combat b)) 0 then
                      set_attackCooldown 10 (MinecraftBot.attack (e_id target) b)
                    else
                      set_attackCooldown (attackCooldown (combat b) - 1) b
                end
            end
        end
    end.

(** [attackEntity(entity)], [entity] a reference to an object of the
    tracker *)
Definition attackEntity (M : JSMath) (r : nat) (b : Bot) : Bot :=
  match objects (bot_entities b) !! r with
  | None => b
  | Some entity =>
      let b := set_target (Some r) b in
      let b := MinecraftBot.lookAt M (Vec3.x (e_position entity))
                 (Vec3.y (e_position entity) + 1)
                 (Vec3.z (e_position entity)) b in
      MinecraftBot.attack (e_id entity) b
  end.

Definition attackNearestEntity (M : JSMath) (types : list string)
    (maxDistance : option Q) (b : Bot) : Bot :=
  match EntityTracker.findNearestEntity M types maxDistance b with
  | Some entity => attackEntity M entity b
  | None => b
  end.

Definition stop (b : Bot) : Bot := set_target None b.

End Combat.

(** ** The constructor *)

(** [new MinecraftBot(options)]: the fields the constructors of the bot and
    of its six parts set (the connection options play no part below). *)
Definition new_bot : Bot :=
  {| connected := false;
     position := vec3 0 0 0;
     velocity := vec3 0 0 0;
     yaw := 0;
     pitch := 0;
     onGround := None;
     health := 20;
     food := 20;
     foodSaturation := None;
     inventory := {| slots := replicate 46 None; slot_props := ∅; selectedSlot := 0 |};
     world := {| blocks := ∅; chunkLoaded := ∅ |};
     bot_entities := {| objects := []; entities := JSMap.empty; players := JSMap.empty |};
     physics := {| gravity := - (8 # 100); jumpSpeed := 42 # 100; jumpCooldown := 0 |};
     crafting := {| recipes := Crafting._loadRecipes; craftingTablePos := None |};
     combat := {| target := None; attackCooldown := 0 |};
     written := [];
     emitted := [];
     blockUpdate_listeners := [];
     window_open_listeners := [];
     timeouts := [];
     promises := [] |}.

(** ** The bot as a state machine *)

(** What can happen to a bot: the client delivers an event or a packet, a
    timer fires, or the script calls a method. *)
Inductive Input :=
| pkt_connect
| pkt_disconnect (reason : string)
| pkt_error (err : string)
| pkt_position (x y z yaw pitch : Q) (onGround : bool)
| pkt_chat (message sender : string)
| pkt_entity_metadata (entityId : Z) (metadata : list Z)
| pkt_health (health food foodSaturation : Q)
| pkt_block_change (x y z : Q) (type : Z)
| pkt_window_items (items : list (option Item))
| pkt_set_slot (slot : Z) (item : option Item)
| pkt_map_chunk (x z : Z)
| pkt_spawn_entity (entityId : Z) (type : string)
    (x y z velocityX velocityY velocityZ yaw pitch : Q)
| pkt_spawn_player (entityId : Z) (uuid name : string) (x y z yaw pitch : Q)
| pkt_entity_destroy (entityIds : list Z)
| pkt_entity_move (entityId : Z) (dX dY dZ : Q)
| tick_physics
| tick_combat
| timer_dig
| call_chat (message : string)
| call_lookAt (x y z : Q)
| call_attack (entityId : Z)
| call_placeBlock (x y z : Q) (face : Z)
| call_mineBlock (x y z : Q)
| call_disconnect (reason : string)
| call_selectSlot (slot : Z)
| call_moveItem (fromSlot toSlot : Z)
| call_dropItem (slot : Z) (fullStack : bool)
| call_jump
| call_move (x z : Q) (sprint : bool)
| call_craft (itemName : string) (count : Z)
| call_setCraftingTablePosition (x y z : Q)
| call_attackEntity (entity : nat)
| call_attackNearestEntity (types : list string) (maxDistance : option Q)
| call_stop.

(** The state a call leaves, however it ends. *)
Definition state_of (c : Completion Bot) : Bot :=
  match c with
  | Return b | Throw _ b | Await b => b
  end.

Definition step (M : JSMath) (b : Bot) (i : Input) : Bot :=
  match i with
  | pkt_connect => MinecraftBot.on_connect b
  | pkt_disconnect reason => MinecraftBot.on_disconnect reason b
  | pkt_error err => MinecraftBot.on_error err b
  | pkt_position x y z yaw pitch onGround =>
      MinecraftBot.on_position x y z yaw pitch onGround b
  | pkt_chat message sender => MinecraftBot.on_chat message sender b
  | pkt_entity_metadata entityId metadata =>
      MinecraftBot.on_entity_metadata entityId metadata b
  | pkt_health health food foodSaturation =>
      MinecraftBot.on_health health food foodSaturation b
  | pkt_block_change x y z type => MinecraftBot.on_block_change x y z type b
  | pkt_window_items items =>
      set_inventory (Inventory.on_window_items items (inventory b)) b
  | pkt_set_slot slot item =>
      set_inventory (Inventory.on_set_slot slot item (inventory b)) b
  | pkt_map_chunk x z => set_world (World.on_map_chunk x z (world b)) b
  | pkt_spawn_entity entityId type x y z vx vy vz yaw pitch =>
      set_bot_entities
        (EntityTracker.on_spawn_entity entityId type x y z vx vy vz yaw pitch
           (bot_entities b)) b
  | pkt_spawn_player entityId uuid name x y z yaw pitch =>
      set_bot_entities
        (EntityTracker.on_spawn_player entityId uuid name x y z yaw pitch
           (bot_entities b)) b
  | pkt_entity_destroy entityIds =>
      set_bot_entities (EntityTracker.on_entity_destroy entityIds (bot_entities b)) b
  | pkt_entity_move entityId dX dY dZ =>
      set_bot_entities (EntityTracker.on_entity_move entityId dX dY dZ (bot_entities b)) b
  | tick_physics => Physics._update b
  | tick_combat => Combat._update M b
  | timer_dig => MinecraftBot.timeout_fires b
  | call_chat message => MinecraftBot.chat message b
  | call_lookAt x y z => MinecraftBot.lookAt M x y z b
  | call_attack entityId => MinecraftBot.attack entityId b
  | call_placeBlock x y z face => MinecraftBot.placeBlock x y z face b
  | call_mineBlock x y z => snd (MinecraftBot.mineBlock x y z b)
  | call_disconnect reason => MinecraftBot.disconnect reason b
  | call_selectSlot slot => state_of (Inventory.selectSlot slot b)
  | call_moveItem fromSlot toSlot => Inventory.moveItem fromSlot toSlot b
  | call_dropItem slot fullStack => Inventory.dropItem slot fullStack b
  | call_jump => Physics.jump b
  | call_move x z sprint => Physics.move M x z sprint b
  | call_craft itemName count => snd (Crafting.craft M itemName count b)
  | call_setCraftingTablePosition x y z => Crafting.setCraftingTablePosition x y z b
  | call_attackEntity entity => Combat.attackEntity M entity b
  | call_attackNearestEntity types maxDistance =>
      Combat.attackNearestEntity M types maxDistance b
  | call_stop => Combat.stop b
  end.

(** The bot after the inputs [tr], in order. *)
Definition run (M : JSMath) (tr : list Input) (b : Bot) : Bot :=
  fold_left (step M) tr b.

(** One interpretation of [Math], under which the examples below are
    evaluated: the integer square root of the integer part, and angles that
    are always zero.  The theorems hold for every interpretation. *)
Definition example_math : JSMath :=
  {| Math_sqrt := λ q, inject_Z (Z.sqrt (Qfloor q));
     Math_sin := λ _, 0%Q;
     Math_cos := λ _, 1%Q;
     Math_atan2 := λ _ _, 0%Q |}.

(** * The notions the properties are stated with *)

(** ** Events and the death signal *)

(** What one input makes the bot emit. *)
Definition events_of (i : Input) : list BotEvent :=
  match i with
  | pkt_connect => [ev_connect]
  | pkt_disconnect reason => [ev_disconnect reason]
  | pkt_error err => [ev_error err]
  | pkt_position x y z _ _ _ => [ev_position (vec3 x y z)]
  | pkt_chat message sender => [ev_chat message sender]
  | pkt_health health food _ =>
      ev_health health food :: (if Qle_bool health 0 then [ev_death] else [])
  | pkt_block_change x y z type => [ev_blockUpdate (vec3 x y z) type]
  | _ => []
  end.

(** The event is [death]. *)
Definition is_death (e : BotEvent) : bool :=
  match e with ev_death => true | _ => false end.

(** How many times [death] was emitted. *)
Definition deaths (b : Bot) : nat := length (filter is_death (emitted b)).

(** A [health] packet with health zero or below. *)
Definition lethal (i : Input) : bool :=
  match i with pkt_health health _ _ => Qle_bool health 0 | _ => false end.

(** ** The cooldown counters *)

(** Both counters stay between 0 and 10. *)
Definition cooldowns_in_range (b : Bot) : Prop :=
  (0 ≤ jumpCooldown (physics b) ≤ 10)%Z ∧ (0 ≤ attackCooldown (combat b) ≤ 10)%Z.

(** The conditions under which [Combat._update] reaches its attack branch:
    the bot is connected, it has a target, the target's id is still in the
    entity map, and the entity found is not more than 3 away ([distance > 3]
    is false, as it also is of a distance that is [NaN]). *)
Definition target_in_reach (M : JSMath) (b : Bot) : bool :=
  connected b &&
  match target (combat b) with
  | None => false
  | Some t =>
      match objects (bot_entities b) !! t with
      | None => false
      | Some target =>
          match JSMap.get (e_id target) (entities (bot_entities b)) with
          | None => false
          | Some r =>
              match objects (bot_entities b) !! r with
              | None => false
              | Some entity =>
                  negb (lt 3 (Vec3.distanceTo M (e_position entity) (position b)))
              end
          end
      end
  end.

(** A connected bot whose target, a zombie one block away, it has just
    struck: the attack cooldown is at 10. *)
Definition after_strike : Bot :=
  run example_math
    [pkt_connect; pkt_spawn_entity 7 "zombie" 1 0 0 0 0 0 0 0;
     call_attackNearestEntity ["zombie"] (Some 16%Q); tick_combat]
    new_bot.

(** The same bot once the server has put it eleven blocks further along
    [z]: the target is out of reach, the attack cooldown still at 10. *)
Definition after_retreat : Bot :=
  run example_math [pkt_position 0 0 11 0 0 true] after_strike.

(** A connected bot that stands on a stone block (its feet at 1.1, the
    block below at 1), has jumped, and has struck a zombie one block away:
    both cooldowns are at 10.  No physics tick has run: the position is the
    packet's. *)
Definition after_jump_and_strike : Bot :=
  run example_math
    [pkt_connect; pkt_block_change 0 1 0 1; pkt_position 0 (11 # 10) 0 0 0 true;
     pkt_spawn_entity 7 "zombie" 1 (11 # 10) 0 0 0 0 0 0; call_jump;
     call_attackNearestEntity ["zombie"] (Some 16%Q); tick_combat]
    new_bot.

(** The bot of [after_strike] once it is told to stop: no target, the
    attack cooldown still at 10. *)
Definition after_stop : Bot :=
  run example_math
    [pkt_connect; pkt_spawn_entity 7 "zombie" 1 0 0 0 0 0 0 0;
     call_attackNearestEntity ["zombie"] (Some 16%Q); tick_combat; call_stop]
    new_bot.

(** ** The entity tracker *)

(** What one input does to the tracker. *)
Definition tracker_step (i : Input) (t : EntityTracker) : EntityTracker :=
  match i with
  | pkt_entity_metadata entityId metadata =>
      EntityTracker.updateMetadata entityId metadata t
  | pkt_spawn_entity entityId type x y z vx vy vz yaw pitch =>
      EntityTracker.on_spawn_entity entityId type x y z vx vy vz yaw pitch t
  | pkt_spawn_player entityId uuid name x y z yaw pitch =>
      EntityTracker.on_spawn_player entityId uuid name x y z yaw pitch t
  | pkt_entity_destroy entityIds => EntityTracker.on_entity_destroy entityIds t
  | pkt_entity_move entityId dX dY dZ =>
      EntityTracker.on_entity_move entityId dX dY dZ t
  | _ => t
  end.

(** A reference [r] is stored in a map of the tracker. *)
Definition stored (r : nat) (t : EntityTracker) : Prop :=
  ∃ k, (k, r) ∈ entities t ∨ (k, r) ∈ players t.

(** Every stored reference is to an object, stored under that object's
    id. *)
Definition tracker_ok (t : EntityTracker) : Prop :=
  ∀ k r, (k, r) ∈ entities t ∨ (k, r) ∈ players t →
         ∃ e, objects t !! r = Some e ∧ e_id e = k.

(** An input that spawns an entity or a player with the id [id]. *)
Definition spawns (id : Z) (i : Input) : bool :=
  match i with
  | pkt_spawn_entity entityId _ _ _ _ _ _ _ _ _ => Z.eqb entityId id
  | pkt_spawn_player entityId _ _ _ _ _ _ _ => Z.eqb entityId id
  | _ => false
  end.

(** The id [id] is a key of neither map. *)
Definition unknown_id (id : Z) (t : EntityTracker) : Prop :=
  ∀ r, ((id, r) ∉ entities t) ∧ ((id, r) ∉ players t).

(** ** Digging *)

(** The promises of the listeners of [ls] whose block [pos] is. *)
Definition hits (pos : Vec3.t) (ls : list DigListener) : list nat :=
  dl_promise <$> filter (λ l, MinecraftBot.same_block pos l = true) ls.

(** The listeners have distinct promises, all of them handed out. *)
Definition dig_wf (b : Bot) : Prop :=
  NoDup (dl_promise <$> blockUpdate_listeners b)
  ∧ ∀ l, l ∈ blockUpdate_listeners b → (dl_promise l < length (promises b))%nat.

(** A block-change packet at the block [(x, y, z)]. *)
Definition block_change_at (x y z : Q) (i : Input) : bool :=
  match i with
  | pkt_block_change x' y' z' _ =>
      strict_eq x' x && strict_eq y' y && strict_eq z' z
  | _ => false
  end.

(** The dig of the listener [l] is active: [l] is registered and its
    promise is pending. *)
Definition active (l : DigListener) (b : Bot) : Prop :=
  l ∈ blockUpdate_listeners b ∧ promises b !! dl_promise l = Some Pending.

(** Block type 0 is air: what [getBlock] answers where nothing is known,
    and what [isWalkable] takes for empty. *)
Definition air : Z := 0.

(** A block-change packet at the block [(x, y, z)] that reports air. *)
Definition air_change_at (x y z : Q) (i : Input) : bool :=
  match i with
  | pkt_block_change x' y' z' type =>
      strict_eq x' x && strict_eq y' y && strict_eq z' z && Z.eqb type air
  | _ => false
  end.

(** A minute without packets: the finish-dig timer fires, then 1200 ticks
    of physics and combat. *)
Definition one_minute : list Input :=
  timer_dig :: concat (replicate 1200 [tick_physics; tick_combat]).

(** ** The inventory *)

(** The slot [i] of the hotbar is a valid selection. *)
Definition hotbar (i : Z) : Prop := (0 ≤ i ≤ 8)%Z.

(** ** The world *)

(** The character [c] occurs in the string [s]. *)
Fixpoint occurs (c : ascii) (s : string) : bool :=
  match s with
  | EmptyString => false
  | String c' s' => Ascii.eqb c c' || occurs c s'
  end.

(** The two numbers are the same: [===], or both are [NaN]. *)
Definition same_number (a a' : Num.t) : bool :=
  match a, a' with
  | Num.NaN, Num.NaN => true
  | _, _ => strict_eq a a'
  end.

(** The two positions have the same coordinates. *)
Definition same_position (p p' : Vec3.t) : bool :=
  same_number (Vec3.x p) (Vec3.x p') && same_number (Vec3.y p) (Vec3.y p')
  && same_number (Vec3.z p) (Vec3.z p').

(** The block type at the position [p] after the input [i], when it was [v]
    before: a block change at [p] sets it, nothing else does. *)
Definition block_after (p : Vec3.t) (v : Z) (i : Input) : Z :=
  match i with
  | pkt_block_change x y z type =>
      if same_position p (vec3 x y z) then type else v
  | _ => v
  end.

(** The input is a block-change packet. *)
Definition is_block_change (i : Input) : bool :=
  match i with pkt_block_change _ _ _ _ => true | _ => false end.

(** ** Nearest entities *)

(** [entity.position.distanceTo(this.bot.position)] *)
Definition distance_of (M : JSMath) (b : Bot) (e : Entity) : Num.t :=
  Vec3.distanceTo M (e_position e) (position b).

(** What the loop of [findNearestEntity] and [findNearestPlayer] answers,
    over the references [refs] with the filter [keep] and the bound
    [maxDistance]: an entity that passes the filter, nearer than the bound,
    than which no entity that passes the filter is nearer; or nothing, when
    no entity that passes the filter is nearer than the bound.  Nearer is
    [<]: an entity whose distance is [NaN] is nearer than nothing. *)
Definition nearest_within (M : JSMath) (b : Bot) (keep : Entity → bool)
    (refs : list nat) (bound : option Num.t) (res : option nat) : Prop :=
  match res with
  | Some r =>
      ∃ e, r ∈ refs
           ∧ objects (bot_entities b) !! r = Some e
           ∧ keep e = true
           ∧ EntityTracker.nearer (distance_of M b e) bound = true
           ∧ ∀ r' e', r' ∈ refs → objects (bot_entities b) !! r' = Some e' →
                      keep e' = true →
                      lt (distance_of M b e') (distance_of M b e) = false
  | None =>
      ∀ r' e', r' ∈ refs → objects (bot_entities b) !! r' = Some e' →
               keep e' = true →
               EntityTracker.nearer (distance_of M b e') bound = false
  end.

(** The same with the bound a caller gives: a rational, or nothing for
    [Infinity]. *)
Definition is_nearest (M : JSMath) (b : Bot) (keep : Entity → bool)
    (refs : list nat) (maxDistance : option Q) (res : option nat) : Prop :=
  nearest_within M b keep refs (Num.fin <$> maxDistance) res.

(** ** Who writes what *)

(** The commands the input [i] can make the bot write. *)
Definition may_write (i : Input) (c : Command) : bool :=
  match i, c with
  | tick_physics, w_position _ _ _ _ => true
  | tick_combat, (w_look _ _ _ | w_use_entity _ 1 0) => true
  | timer_dig, w_block_dig 2 _ 1 => true
  | call_chat message, w_chat message' => String.eqb message message'
  | call_lookAt _ _ _, w_look _ _ _ => true
  | call_attack entityId, w_use_entity target 1 0 => Z.eqb entityId target
  | call_placeBlock _ _ _ _, w_block_place _ _ _ _ _ _ => true
  | call_mineBlock _ _ _, w_block_dig 0 _ 1 => true
  | call_disconnect _, c_end _ => true
  | call_selectSlot slot, w_held_item_slot slot' => Z.eqb slot slot'
  | (call_moveItem _ _ | call_dropItem _ _ | call_craft _ _),
    w_window_click _ _ _ _ _ _ => true
  | call_craft _ _, w_block_place _ 1 0 _ _ _ => true
  | (call_attackEntity _ | call_attackNearestEntity _ _),
    (w_look _ _ _ | w_use_entity _ 1 0) => true
  | _, _ => false
  end.

(** The input is an event or a packet of the client. *)
Definition is_packet (i : Input) : bool :=
  match i with
  | pkt_connect | pkt_disconnect _ | pkt_error _ | pkt_position _ _ _ _ _ _
  | pkt_chat _ _ | pkt_entity_metadata _ _ | pkt_health _ _ _
  | pkt_block_change _ _ _ _ | pkt_window_items _ | pkt_set_slot _ _
  | pkt_map_chunk _ _ | pkt_spawn_entity _ _ _ _ _ _ _ _ _ _
  | pkt_spawn_player _ _ _ _ _ _ _ _ | pkt_entity_destroy _
  | pkt_entity_move _ _ _ _ => true
  | _ => false
  end.

(** ** Ticks *)

(** The input is a tick of one of the two intervals. *)
Definition is_tick (i : Input) : bool :=
  match i with tick_physics | tick_combat => true | _ => false end.

Definition is_physics_tick (i : Input) : bool :=
  match i with tick_physics => true | _ => false end.

Definition is_combat_tick (i : Input) : bool :=
  match i with tick_combat => true | _ => false end.

(** [n] physics ticks in a row. *)
Definition physics_ticks (n : nat) : list Input := replicate n tick_physics.

(** A bot that stands on a stone block, its feet at 1.1 and the block below
    at 1 (1.1 - 0.1 is 1 in doubles as well), and has just jumped. *)
Definition after_jump : Bot :=
  run example_math
    [pkt_connect; pkt_position 0 (11 # 10) 0 0 0 true;
     pkt_block_change 0 1 0 1; call_jump] new_bot.

(** ** Strikes *)

(** The command is an attack ([use_entity]). *)
Definition is_strike (c : Command) : bool :=
  match c with w_use_entity _ _ _ => true | _ => false end.

(** The attacks written so far. *)
Definition strikes (b : Bot) : list Command := filter is_strike (written b).

(** The input is a call of a method that attacks: [attack], [attackEntity]
    or [attackNearestEntity]. *)
Definition is_attack_call (i : Input) : bool :=
  match i with
  | call_attack _ | call_attackEntity _ | call_attackNearestEntity _ _ => true
  | _ => false
  end.

(** ** Dig commands *)

(** The location of a start-dig command ([block_dig] with status 0). *)
Definition start_location (c : Command) : option Vec3.t :=
  match c with
  | w_block_dig status location _ => if Z.eqb status 0 then Some location else None
  | _ => None
  end.

(** The location of a finish-dig command ([block_dig] with status 2). *)
Definition finish_location (c : Command) : option Vec3.t :=
  match c with
  | w_block_dig status location _ => if Z.eqb status 2 then Some location else None
  | _ => None
  end.

(** The locations of the commands of [l] that [f] selects, in order. *)
Fixpoint locations (f : Command → option Vec3.t) (l : list Command) : list Vec3.t :=
  match l with
  | [] => []
  | c :: l' =>
      match f c with
      | Some p => p :: locations f l'
      | None => locations f l'
      end
  end.

(** ** Crafting and the inventory *)

(** A bot that was sent four planks into slot 36, the first hotbar slot of
    the player's window. *)
Definition with_planks : Bot :=
  run example_math
    [pkt_set_slot 36 (Some {| item_name := "planks"; item_id := 5; item_count := 4 |})]
    new_bot.

(** The packets that carry the inventory. *)
Definition is_inventory_packet (i : Input) : bool :=
  match i with
  | pkt_window_items _ | pkt_set_slot _ _ => true
  | _ => false
  end.

(** ** The [onGround] flag *)

(** The [onGround] flag after one input: a [position] packet sets it. *)
Definition onGround_after (g : option bool) (i : Input) : option bool :=
  match i with
  | pkt_position _ _ _ _ _ g' => Some g'
  | _ => g
  end.

(** The flag of the last [position] packet among the inputs, if any. *)
Definition last_onGround (tr : list Input) : option bool :=
  fold_left onGround_after tr None.

(** ** Entities that have moved *)

(** The object [r] of the tracker has the id [id] and a position that is
    [NaN] in every coordinate. *)
Definition lost (id : Z) (r : nat) (t : EntityTracker) : Prop :=
  ∃ e, objects t !! r = Some e ∧ e_id e = id
       ∧ e_position e = vec3 Num.NaN Num.NaN Num.NaN.

(** * Properties *)

(** ** Frame lemmas: what the loops leave alone *)

(** A field update with the value the field has changes nothing. *)
Lemma set_written_id (b : Bot) : set_written (written b) b = b.
Proof. by destruct b. Qed.

Lemma set_listeners_promises_id (b : Bot) :
  set_promises (promises b) (set_blockUpdate_listeners (blockUpdate_listeners b) b) = b.
Proof. by destruct b. Qed.

(** [settle] changes [promises] only. *)
Lemma settle_frame (p : nat) (s : PromiseState) (b : Bot) :
  ∃ ps, settle p s b = set_promises ps b.
Proof.
  unfold settle. destruct (promises b !! p) as [[]|]; eauto;
    exists (promises b); by destruct b.
Qed.

(** One listener of [blockUpdate] changes the listener list and the
    promises only. *)
Lemma onBlockBreak_frame (pos : Vec3.t) (b : Bot) (l : DigListener) :
  ∃ ls ps, MinecraftBot.onBlockBreak pos b l
           = set_promises ps (set_blockUpdate_listeners ls b).
Proof.
  unfold MinecraftBot.onBlockBreak.
  destruct (MinecraftBot.same_block pos l).
  - destruct (settle_frame (dl_promise l) Fulfilled (MinecraftBot.removeListener l b))
      as [ps ->]. eexists _, ps. reflexivity.
  - exists (blockUpdate_listeners b), (promises b).
    symmetry. apply set_listeners_promises_id.
Qed.

Lemma listeners_frame (pos : Vec3.t) (ls : list DigListener) (b : Bot) :
  ∃ ls' ps, fold_left (MinecraftBot.onBlockBreak pos) ls b
            = set_promises ps (set_blockUpdate_listeners ls' b).
Proof.
  revert b. induction ls as [|l ls IH]; intros b; simpl.
  - exists (blockUpdate_listeners b), (promises b).
    symmetry. apply set_listeners_promises_id.
  - destruct (onBlockBreak_frame pos b l) as (ls1 & ps1 & ->).
    destruct (IH (set_promises ps1 (set_blockUpdate_listeners ls1 b)))
      as (ls2 & ps2 & ->).
    by exists ls2, ps2.
Qed.

(** The loop that places ingredients only writes to the client. *)
Lemma place_ingredients_frame (windowId i : Z) (ings : list (string * Z)) (b : Bot) :
  ∃ cmds, state_of (Crafting.place_ingredients windowId i ings b)
          = set_written (written b ++ cmds) b.
Proof.
  revert i b. induction ings as [|[item n] ings IH]; intros i b; simpl.
  - exists []. rewrite app_nil_r. symmetry. apply set_written_id.
  - destruct (Inventory.findItem _ _) as [[found slot]|]; simpl.
    + destruct (IH (i + 1)%Z
        (write (w_window_click windowId (Z.of_nat slot) 0 i 0 (Some found)) b))
        as [cmds ->].
      eexists (_ :: cmds). unfold write; simpl.
      by rewrite <- app_assoc.
    + exists []. rewrite app_nil_r. symmetry. apply set_written_id.
Qed.

(** The body of [craft] writes to the client and may register a
    [window_open] listener; it changes nothing else. *)
Lemma craft_body_frame (M : JSMath) (p : nat) (itemName : string) (count : Z)
    (b : Bot) :
  ∃ cmds wo, state_of (Crafting.craft_body M p itemName count b)
             = set_window_open_listeners wo (set_written cmds b).
Proof.
  assert (Hid : ∃ cmds wo, b = set_window_open_listeners wo (set_written cmds b))
    by (exists (written b), (window_open_listeners b); by destruct b).
  unfold Crafting.craft_body.
  destruct (recipes (crafting b) !! itemName) as [recipe|]; simpl; [|done].
  destruct (_ && _); simpl; [done|].
  destruct (Crafting.missing_ingredient _ _ _); simpl; [done|].
  destruct (requiresCraftingTable recipe).
  - unfold Crafting._openCraftingTable.
    destruct (craftingTablePos (crafting b)); simpl; [|done].
    destruct (lt _ _); simpl; [done|]. by eexists _, _.
  - destruct (place_ingredients_frame 0 0 (ingredients recipe) b) as [cmds Hc].
    destruct (Crafting.place_ingredients 0 0 (ingredients recipe) b) as [b2|m b2|b2];
      simpl in Hc; subst b2; simpl.
    + exists (written b ++ cmds
              ++ [w_window_click 0 0 0 (Z.of_nat (length (ingredients recipe))) 0 None]),
        (window_open_listeners b).
      unfold write; simpl. rewrite <- app_assoc. by destruct b.
    + exists (written b ++ cmds), (window_open_listeners b). by destruct b.
    + exists (written b ++ cmds), (window_open_listeners b). by destruct b.
Qed.

(** [craft] adds one promise, the one it returns, and touches no other. *)
Lemma craft_promises (M : JSMath) (itemName : string) (count : Z) (b : Bot) :
  ∃ cmds wo s,
    snd (Crafting.craft M itemName count b)
    = set_promises (promises b ++ [s])
        (set_window_open_listeners wo (set_written cmds b)).
Proof.
  unfold Crafting.craft, new_promise.
  destruct (craft_body_frame M (length (promises b)) itemName count
              (set_promises (promises b ++ [Pending]) b)) as (cmds & wo & Hbody).
  assert (Hsettle : ∀ s,
            settle (length (promises b)) s
              (set_window_open_listeners wo
                 (set_written cmds (set_promises (promises b ++ [Pending]) b)))
            = set_promises (promises b ++ [s])
                (set_window_open_listeners wo (set_written cmds b))).
  { intros s. unfold settle; simpl.
    rewrite lookup_app_r, Nat.sub_diag by lia; simpl.
    by rewrite insert_app_r_alt, Nat.sub_diag by lia. }
  destruct (Crafting.craft_body _ _ _ _ _) as [b2|m b2|b2];
    simpl in Hbody; subst b2; simpl.
  - rewrite Hsettle. by eexists _, _, _.
  - rewrite Hsettle. by eexists _, _, _.
  - by exists cmds, wo, Pending.
Qed.

Lemma craft_frame (M : JSMath) (itemName : string) (count : Z) (b : Bot) :
  ∃ cmds wo ps,
    snd (Crafting.craft M itemName count b)
    = set_promises ps (set_window_open_listeners wo (set_written cmds b)).
Proof.
  destruct (craft_promises M itemName count b) as (cmds & wo & s & ->).
  by eexists _, _, _.
Qed.

(** The case analysis shared by the lemmas that say what one input does to
    one field: the two loops are replaced by their frames, the other
    handlers and methods are unfolded and their branches taken apart. *)
Ltac step_cases :=
  simpl;
  try (unfold MinecraftBot.on_block_change, MinecraftBot.emit_blockUpdate;
       match goal with
       | |- context [fold_left (MinecraftBot.onBlockBreak ?pos) ?ls ?b0] =>
           destruct (listeners_frame pos ls b0) as (? & ? & ->)
       end);
  try (match goal with
       | |- context [Crafting.craft ?M ?itemName ?count ?b] =>
           destruct (craft_frame M itemName count b) as (? & ? & ? & ->)
       end);
  unfold MinecraftBot.on_health, Physics._update, Combat._update,
    MinecraftBot.timeout_fires, MinecraftBot.disconnect, Inventory.selectSlot,
    Physics.jump, Combat.attackNearestEntity, Combat.attackEntity;
  simpl; repeat case_match; simpl in *; try congruence.

(** ** C10: [selectSlot] *)

(** C10. [selectSlot] accepts exactly the hotbar range 0..8.  For a slot in
    the range it returns, [selectedSlot] is the slot and exactly one
    [held_item_slot] command, for that slot, has been written.  For a slot
    outside the range it throws and the bot is as it was before the call:
    no command was written and [selectedSlot] is unchanged. *)
Theorem selectSlot_accepts_exactly_hotbar (slot : Z) (b : Bot) :
  ((0 ≤ slot ≤ 8)%Z →
     ∃ b', Inventory.selectSlot slot b = Return b'
           ∧ selectedSlot (inventory b') = slot
           ∧ written b' = written b ++ [w_held_item_slot slot])
  ∧ (¬ (0 ≤ slot ≤ 8)%Z →
     Inventory.selectSlot slot b = Throw "Hotbar slots must be between 0 and 8" b).
Proof.
  unfold Inventory.selectSlot. split; intros H.
  - replace (Z.ltb slot 0 || Z.ltb 8 slot) with false by (symmetry; apply orb_false_iff; lia).
    eexists; split; [reflexivity|]. by simpl.
  - replace (Z.ltb slot 0 || Z.ltb 8 slot) with true; [done|].
    symmetry; apply orb_true_iff; lia.
Qed.

Lemma selectSlot_accepts_exactly_hotbar_witness :
  (∃ b', Inventory.selectSlot 3 new_bot = Return b'
         ∧ selectedSlot (inventory b') = 3%Z
         ∧ written b' = written new_bot ++ [w_held_item_slot 3])
  ∧ Inventory.selectSlot 9 new_bot = Throw "Hotbar slots must be between 0 and 8" new_bot
  ∧ Inventory.selectSlot (-1) new_bot = Throw "Hotbar slots must be between 0 and 8" new_bot.
Proof.
  split; [|split].
  - apply (proj1 (selectSlot_accepts_exactly_hotbar 3 new_bot)). lia.
  - apply (proj2 (selectSlot_accepts_exactly_hotbar 9 new_bot)). lia.
  - apply (proj2 (selectSlot_accepts_exactly_hotbar (-1) new_bot)). lia.
Defined.

(** ** C9: a block change applied twice *)

Lemma setBlock_twice (pos : Vec3.t) (blockType : Z) (w : World) :
  World.setBlock pos blockType (World.setBlock pos blockType w)
  = World.setBlock pos blockType w.
Proof. unfold World.setBlock; simpl. by rewrite insert_insert_eq. Qed.

(** The [block_change] handler changes the world by [setBlock] and leaves
    the entities alone. *)
Lemma on_block_change_store (x y z : Q) (type : Z) (b : Bot) :
  world (MinecraftBot.on_block_change x y z type b)
  = World.setBlock (vec3 x y z) type (world b)
  ∧ bot_entities (MinecraftBot.on_block_change x y z type b) = bot_entities b.
Proof.
  unfold MinecraftBot.on_block_change, MinecraftBot.emit_blockUpdate.
  match goal with |- context [fold_left ?f ?ls ?b0] =>
    destruct (listeners_frame (vec3 x y z) ls b0) as (ls' & ps & ->) end.
  by simpl.
Qed.

(** C9. Applying the same block-change event twice leaves the state store
    (the block map of the world, and the entities) as applying it once does:
    [setBlock(pos, t)] after [setBlock(pos, t)] gives the block map of a
    single [setBlock(pos, t)], and so does the [block_change] handler run
    twice on the same packet. *)
Theorem block_change_idempotent (x y z : Q) (type : Z) (b : Bot) :
  World.setBlock (vec3 x y z) type (World.setBlock (vec3 x y z) type (world b))
  = World.setBlock (vec3 x y z) type (world b)
  ∧ world (MinecraftBot.on_block_change x y z type
             (MinecraftBot.on_block_change x y z type b))
    = world (MinecraftBot.on_block_change x y z type b)
  ∧ bot_entities (MinecraftBot.on_block_change x y z type
                    (MinecraftBot.on_block_change x y z type b))
    = bot_entities (MinecraftBot.on_block_change x y z type b).
Proof.
  split; [apply setBlock_twice|].
  destruct (on_block_change_store x y z type b) as [Hw He].
  destruct (on_block_change_store x y z type
              (MinecraftBot.on_block_change x y z type b)) as [Hw' He'].
  split.
  - rewrite Hw', Hw. apply setBlock_twice.
  - by rewrite He'.
Qed.

(** ** C7: the position packet *)

(** C7. After the [position] handler the position, the yaw and the pitch of
    the bot are the ones the packet carries, whatever the bot was before
    (so whatever inputs, physics ticks among them, came before). *)
Theorem position_packet_overrides (M : JSMath) (tr : list Input) (b : Bot)
    (x y z yaw' pitch' : Q) (onGround' : bool) :
  let b' := run M (tr ++ [pkt_position x y z yaw' pitch' onGround']) b in
  position b' = vec3 x y z ∧ yaw b' = yaw' ∧ pitch b' = pitch'
  ∧ onGround b' = Some onGround'.
Proof.
  unfold run. rewrite fold_left_app. by simpl.
Qed.

(** ** C5: the death signal *)

(** Every input appends to what was emitted the events of [events_of]. *)
Lemma emitted_step (M : JSMath) (b : Bot) (i : Input) :
  emitted (step M b i) = emitted b ++ events_of i.
Proof.
  destruct i; step_cases; rewrite <- ?app_assoc, ?app_nil_r; reflexivity.
Qed.

Lemma emitted_run (M : JSMath) (tr : list Input) (b : Bot) :
  emitted (run M tr b) = emitted b ++ concat (map events_of tr).
Proof.
  revert b. induction tr as [|i tr IH]; intros b; simpl.
  - by rewrite app_nil_r.
  - unfold run in *; simpl. rewrite IH, emitted_step. by rewrite <- app_assoc.
Qed.

Lemma deaths_events_of (i : Input) :
  length (filter is_death (events_of i)) = if lethal i then 1%nat else 0%nat.
Proof. destruct i; simpl; try reflexivity. by destruct (Qle_bool _ 0). Qed.

(** C5 (as the code has it). Each [health] packet with health zero or below
    emits [death] once, whether or not the one before it did: after any
    inputs, [death] has been emitted once more per such packet among them.
    Nothing latches the first death, so [k] consecutive zero-health updates
    emit [death] [k] times. *)
Theorem death_emitted_per_lethal_update (M : JSMath) (tr : list Input) (b : Bot) :
  deaths (run M tr b) = (deaths b + length (filter lethal tr))%nat.
Proof.
  unfold deaths. rewrite emitted_run, filter_app, length_app. f_equal.
  induction tr as [|i tr IH]; [done|].
  simpl. rewrite filter_app, length_app, IH, deaths_events_of.
  rewrite filter_cons. destruct (lethal i); [|done].
  rewrite decide_True by done. reflexivity.
Qed.

(** Two consecutive [health] packets with health 0: [death] is emitted
    after each of them, twice in all, where C5 allows it once. *)
Lemma death_emitted_twice :
  emitted (run example_math [pkt_health 0 20 5; pkt_health 0 20 5] new_bot)
  = [ev_health 0 20; ev_death; ev_health 0 20; ev_death]
  ∧ deaths (run example_math [pkt_health 0 20 5; pkt_health 0 20 5] new_bot) = 2%nat.
Proof. split; reflexivity. Qed.

(** ** C6: [craft] with a missing ingredient *)

(** Settling the promise that was made last. *)
Lemma settle_new (s : PromiseState) (b : Bot) :
  settle (length (promises b)) s (snd (new_promise b))
  = set_promises (promises b ++ [s]) b.
Proof.
  unfold settle, new_promise; simpl.
  rewrite lookup_app_r, Nat.sub_diag by lia; simpl.
  rewrite insert_app_r_alt, Nat.sub_diag by lia. reflexivity.
Qed.

(** An ingredient that [findItem] does not find makes the check of the
    ingredients fail. *)
Lemma missing_ingredient_absent (count : Z) (inv : Inventory)
    (ings : list (string * Z)) (item : string) (n : Z) :
  (item, n) ∈ ings →
  Inventory.findItem (ByName item) inv = None →
  is_Some (Crafting.missing_ingredient count inv ings).
Proof.
  induction ings as [|[item' n'] ings IH]; intros Hin Hfind; [by inversion Hin|].
  simpl. destruct (decide ((item, n) = (item', n'))) as [[= <- <-]|Hne].
  - by rewrite Hfind.
  - destruct (Inventory.findItem (ByName item') inv) as [[found slot]|]; [|done].
    destruct (Z.ltb _ _); [done|].
    apply IH; [|done]. by apply elem_of_cons in Hin as [?|?].
Qed.

(** [craft] fails fast for every recipe table: when the check of the
    ingredients fails, the promise is made and rejected within the call and
    nothing else changes, so nothing is written.  The error is the missing
    ingredient unless the recipe needs a crafting table and none is set:
    that check comes first. *)
Lemma craft_fails_fast (M : JSMath) (itemName : string) (count : Z) (b : Bot)
    (recipe : Recipe) (item : string) :
  recipes (crafting b) !! itemName = Some recipe →
  Crafting.missing_ingredient count (inventory b) (ingredients recipe) = Some item →
  Crafting.craft M itemName count b
  = (length (promises b),
     set_promises
       (promises b ++
          [Rejected
             (if requiresCraftingTable recipe
                 && negb (bool_decide (is_Some (craftingTablePos (crafting b))))
              then "Crafting table required but not found"
              else "Missing ingredient: " +:+ item)]) b).
Proof.
  intros Hrecipe Hmissing.
  unfold Crafting.craft.
  assert (Hnew : new_promise b = (length (promises b), snd (new_promise b))) by done.
  rewrite Hnew. unfold Crafting.craft_body.
  assert (Hc : crafting (snd (new_promise b)) = crafting b) by done.
  assert (Hi : inventory (snd (new_promise b)) = inventory b) by done.
  rewrite Hc, Hi, Hrecipe.
  destruct (_ && _); [by rewrite settle_new|].
  rewrite Hmissing. by rewrite settle_new.
Qed.

(** No input changes the recipe table. *)
Lemma recipes_step (M : JSMath) (b : Bot) (i : Input) :
  recipes (crafting (step M b i)) = recipes (crafting b).
Proof. destruct i; step_cases; reflexivity. Qed.

Lemma recipes_run (M : JSMath) (tr : list Input) (b : Bot) :
  recipes (crafting (run M tr b)) = recipes (crafting b).
Proof.
  revert b. induction tr as [|i tr IH]; intros b; [done|].
  unfold run in *; simpl. by rewrite IH, recipes_step.
Qed.

(** C6. In every state the bot can reach, [craft] for an item whose recipe
    has an ingredient that [findItem] does not find in the inventory (as
    [craft("stick")] with no planks) fails within the call: the promise it
    returns is already rejected with the error [Missing ingredient], and
    nothing was written to the client (no window click, no block place, no
    other command). *)
Theorem craft_missing_ingredient_fails_fast (M : JSMath) (tr : list Input)
    (itemName : string) (count : Z) (recipe : Recipe) (item : string) (n : Z) :
  let b := run M tr new_bot in
  recipes (crafting b) !! itemName = Some recipe →
  (item, n) ∈ ingredients recipe →
  Inventory.findItem (ByName item) (inventory b) = None →
  ∃ p b', Crafting.craft M itemName count b = (p, b')
          ∧ promises b' !! p = Some (Rejected ("Missing ingredient: " +:+ item))
          ∧ written b' = written b.
Proof.
  intros b Hrecipe Hin Hfind.
  assert (Hstick : recipes (crafting b) = Crafting._loadRecipes)
    by apply (recipes_run M tr new_bot).
  rewrite Hstick in Hrecipe. unfold Crafting._loadRecipes in Hrecipe.
  apply lookup_insert_Some in Hrecipe as [[<- <-]|[_ Hrecipe]];
    [|by rewrite lookup_empty in Hrecipe].
  simpl in Hin. apply list_elem_of_singleton in Hin as [= -> ->].
  assert (Hmissing : Crafting.missing_ingredient count (inventory b)
            [("planks", 2%Z)] = Some "planks") by (simpl; by rewrite Hfind).
  assert (Hlookup : recipes (crafting b) !! "stick"
            = Some {| ingredients := [("planks", 2%Z)]; result := ("stick", 4%Z);
                      requiresCraftingTable := false |})
    by (rewrite Hstick; apply lookup_insert_eq).
  eexists _, _. split.
  - exact (craft_fails_fast M "stick" count b _ "planks" Hlookup Hmissing).
  - split; [|done]. simpl.
    by rewrite lookup_app_r, Nat.sub_diag by lia.
Qed.

Lemma craft_missing_ingredient_fails_fast_witness :
  ∃ p b', Crafting.craft example_math "stick" 1 new_bot = (p, b')
          ∧ promises b' !! p = Some (Rejected "Missing ingredient: planks")
          ∧ written b' = written new_bot.
Proof.
  apply (craft_missing_ingredient_fails_fast example_math [] "stick" 1
           {| ingredients := [("planks", 2%Z)]; result := ("stick", 4%Z);
              requiresCraftingTable := false |} "planks" 2).
  - reflexivity.
  - by apply list_elem_of_singleton.
  - reflexivity.
Defined.

(** ** C3 and C4: the cooldown counters *)

(** What one input does to the jump cooldown: nothing, one down from a
    positive value, or the reset to 10. *)
Lemma jumpCooldown_step (M : JSMath) (b : Bot) (i : Input) :
  let c := jumpCooldown (physics b) in
  let c' := jumpCooldown (physics (step M b i)) in
  c' = c ∨ (0 < c ∧ c' = c - 1)%Z ∨ c' = 10%Z.
Proof.
  destruct i; step_cases; auto; right; left; split; lia.
Qed.

(** What one input does to the attack cooldown: nothing, one down from a
    value that is not zero, or the reset to 10. *)
Lemma attackCooldown_step (M : JSMath) (b : Bot) (i : Input) :
  let c := attackCooldown (combat b) in
  let c' := attackCooldown (combat (step M b i)) in
  c' = c ∨ (c ≠ 0 ∧ c' = c - 1)%Z ∨ c' = 10%Z.
Proof.
  destruct i; step_cases; auto; right; left; split; lia.
Qed.

Lemma cooldowns_in_range_step (M : JSMath) (b : Bot) (i : Input) :
  cooldowns_in_range b → cooldowns_in_range (step M b i).
Proof.
  intros [Hj Ha]. split.
  - destruct (jumpCooldown_step M b i) as [->|[[? ->]| ->]]; lia.
  - destruct (attackCooldown_step M b i) as [->|[[? ->]| ->]]; lia.
Qed.

Lemma cooldowns_in_range_run (M : JSMath) (tr : list Input) (b : Bot) :
  cooldowns_in_range b → cooldowns_in_range (run M tr b).
Proof.
  revert b. induction tr as [|i tr IH]; intros b Hb; [done|].
  apply IH. by apply cooldowns_in_range_step.
Qed.

(** C3. Whatever the bot is sent, ticked (physics and combat updates) and
    called with (jump and the attack methods among the calls), starting from
    the constructor's state, the jump cooldown and the attack cooldown are
    never negative. *)
Theorem cooldowns_never_negative (M : JSMath) (tr : list Input) :
  (0 ≤ jumpCooldown (physics (run M tr new_bot)))%Z
  ∧ (0 ≤ attackCooldown (combat (run M tr new_bot)))%Z.
Proof.
  destruct (cooldowns_in_range_run M tr new_bot) as [Hj Ha].
  - split; simpl; lia.
  - lia.
Qed.

(** The physics update of a connected bot decrements a positive jump
    cooldown and does not touch the attack cooldown. *)
Lemma physics_update_cooldowns (b : Bot) :
  connected b = true →
  jumpCooldown (physics (Physics._update b))
  = (if Z.ltb 0 (jumpCooldown (physics b)) then jumpCooldown (physics b) - 1
     else jumpCooldown (physics b))%Z
  ∧ attackCooldown (combat (Physics._update b)) = attackCooldown (combat b).
Proof.
  intros Hc. unfold Physics._update. rewrite Hc. simpl.
  repeat case_match; simpl in *; try congruence; done.
Qed.

(** The combat update decrements the attack cooldown in one branch only:
    the target in reach and the counter not zero.  In reach with the counter
    at zero it attacks and resets the counter to 10; otherwise it leaves the
    counter as it is. *)
Lemma combat_update_cooldowns (M : JSMath) (b : Bot) :
  jumpCooldown (physics (Combat._update M b)) = jumpCooldown (physics b)
  ∧ attackCooldown (combat (Combat._update M b))
    = (if target_in_reach M b then
         if Z.eqb (attackCooldown (combat b)) 0 then 10
         else attackCooldown (combat b) - 1
       else attackCooldown (combat b))%Z.
Proof.
  unfold Combat._update, target_in_reach.
  destruct (connected b); simpl; [|done].
  repeat case_match; simpl in *; try congruence; done.
Qed.

(** C4 (as the code has it). On a tick that executes while the bot is
    connected, the physics update takes one off a positive jump cooldown and
    leaves a jump cooldown of zero at zero, and the combat update takes one
    off a positive attack cooldown provided the target is in reach: a target
    is set, its id is still in the entity map, and it is at most 3 away (the
    test is that [distance > 3] fails, as it also does when the distance is
    [NaN]). *)
Theorem tick_decrements_cooldowns (M : JSMath) (b : Bot) :
  connected b = true →
  jumpCooldown (physics (Physics._update b))
  = (if Z.ltb 0 (jumpCooldown (physics b)) then jumpCooldown (physics b) - 1
     else jumpCooldown (physics b))%Z
  ∧ (target_in_reach M b = true →
     (0 < attackCooldown (combat b))%Z →
     attackCooldown (combat (Combat._update M b))
     = (attackCooldown (combat b) - 1)%Z).
Proof.
  intros Hc.
  destruct (physics_update_cooldowns b Hc) as [H1 _].
  destruct (combat_update_cooldowns M b) as [_ H2].
  split; [done|]. intros Hreach Hpos. rewrite H2, Hreach.
  by destruct (Z.eqb_spec (attackCooldown (combat b)) 0); [lia|].
Qed.

Lemma tick_decrements_cooldowns_witness :
  jumpCooldown (physics (Physics._update after_jump_and_strike)) = 9%Z
  ∧ attackCooldown (combat (Combat._update example_math after_jump_and_strike)) = 9%Z.
Proof.
  destruct (tick_decrements_cooldowns example_math after_jump_and_strike) as [Hj Ha];
    [reflexivity|].
  split; [exact Hj|]. apply Ha; [reflexivity|]. vm_compute. reflexivity.
Defined.

(** A tick, the physics update and then the combat update, that leaves a
    positive attack cooldown as it is, where C4 wants it smaller.  After the
    stop the bot is connected and its attack cooldown is 10; the combat
    update returns at once when there is no target.  After the retreat the
    bot is connected and still has its target, now more than 11 blocks away;
    the combat update chases the target and does not touch the counter. *)
Lemma attack_cooldown_not_decremented :
  (connected after_stop = true
   ∧ attackCooldown (combat after_stop) = 10%Z
   ∧ attackCooldown
       (combat (run example_math [tick_physics; tick_combat] after_stop)) = 10%Z)
  ∧ (connected after_retreat = true
     ∧ target (combat after_retreat) = Some 0%nat
     ∧ attackCooldown (combat after_retreat) = 10%Z
     ∧ attackCooldown
         (combat (run example_math [tick_physics; tick_combat] after_retreat)) = 10%Z).
Proof. repeat split; vm_compute; reflexivity. Qed.

(** ** C8: destroyed entities *)

(** *** The JS map *)

Lemma JSMap_get_elem_of {V : Type} (k : Z) (v : V) (m : JSMap.t V) :
  JSMap.get k m = Some v → (k, v) ∈ m.
Proof.
  induction m as [|[k' v'] m IH]; simpl; [done|].
  destruct (Z.eqb_spec k k') as [->|Hne].
  - intros [= ->]. apply list_elem_of_here.
  - intros H. apply list_elem_of_further. by apply IH.
Qed.

Lemma JSMap_get_None {V : Type} (k : Z) (m : JSMap.t V) :
  (∀ v, (k, v) ∉ m) → JSMap.get k m = None.
Proof.
  intros H. destruct (JSMap.get k m) as [v|] eqn:Hget; [|done].
  by apply JSMap_get_elem_of, H in Hget.
Qed.

Lemma JSMap_elem_of_set {V : Type} (k k' : Z) (v v' : V) (m : JSMap.t V) :
  (k', v') ∈ JSMap.set k v m → (k', v') = (k, v) ∨ (k', v') ∈ m.
Proof.
  induction m as [|[k0 v0] m IH]; simpl.
  - intros H%list_elem_of_singleton. by left.
  - destruct (Z.eqb k k0).
    + intros [->|H]%elem_of_cons; [by left|]. right. by apply list_elem_of_further.
    + intros [->|H]%elem_of_cons; [right; apply list_elem_of_here|].
      destruct (IH H) as [?|?]; [by left|]. right. by apply list_elem_of_further.
Qed.

Lemma JSMap_elem_of_delete {V : Type} (k k' : Z) (v' : V) (m : JSMap.t V) :
  (k', v') ∈ JSMap.delete k m ↔ (k', v') ∈ m ∧ k' ≠ k.
Proof.
  unfold JSMap.delete. rewrite list_elem_of_filter. simpl. tauto.
Qed.

Lemma JSMap_get_delete {V : Type} (k : Z) (m : JSMap.t V) :
  JSMap.get k (JSMap.delete k m) = None.
Proof.
  apply JSMap_get_None. intros v [_ H]%JSMap_elem_of_delete. done.
Qed.

(** *** What an input does to the tracker *)

Lemma bot_entities_step (M : JSMath) (b : Bot) (i : Input) :
  bot_entities (step M b i) = tracker_step i (bot_entities b).
Proof. destruct i; step_cases; reflexivity. Qed.

Lemma bot_entities_run (M : JSMath) (tr : list Input) (b : Bot) :
  bot_entities (run M tr b) = fold_left (λ t i, tracker_step i t) tr (bot_entities b).
Proof.
  revert b. induction tr as [|i tr IH]; intros b; [done|].
  unfold run in *; simpl. by rewrite IH, bot_entities_step.
Qed.

Lemma destroy_objects (ids : list Z) (t : EntityTracker) :
  objects (EntityTracker.on_entity_destroy ids t) = objects t.
Proof.
  revert t. induction ids as [|id ids IH]; intros t; [done|].
  unfold EntityTracker.on_entity_destroy in *; simpl. by rewrite IH.
Qed.

(** After [entity_destroy] the maps hold what they held, less the
    destroyed ids. *)
Lemma destroy_elem_of (ids : list Z) (t : EntityTracker) (k : Z) (r : nat) :
  ((k, r) ∈ entities (EntityTracker.on_entity_destroy ids t)
     ↔ (k, r) ∈ entities t ∧ k ∉ ids)
  ∧ ((k, r) ∈ players (EntityTracker.on_entity_destroy ids t)
     ↔ (k, r) ∈ players t ∧ k ∉ ids).
Proof.
  revert t. induction ids as [|id ids IH]; intros t.
  - simpl. split; (split; [intros H; split; [done|apply not_elem_of_nil]|by intros [H _]]).
  - unfold EntityTracker.on_entity_destroy in *; simpl.
    destruct (IH (EntityTracker.destroy t id)) as [IHe IHp].
    rewrite IHe, IHp. simpl. rewrite !JSMap_elem_of_delete, !not_elem_of_cons.
    tauto.
Qed.

Lemma tracker_ok_step (i : Input) (t : EntityTracker) :
  tracker_ok t → tracker_ok (tracker_step i t).
Proof.
  intros Hok. destruct i; simpl; try done.
  - (* metadata *)
    unfold EntityTracker.updateMetadata.
    destruct (JSMap.get entityId (entities t)) as [r0|]; [|done].
    destruct (objects t !! r0) as [e0|] eqn:He0; [|done].
    intros k r Hin; simpl in *. destruct (Hok k r Hin) as (e & He & Hid).
    destruct (decide (r = r0)) as [->|Hne].
    + exists (EntityTracker.set_metadata metadata e0). split; [|simpl; congruence].
      apply list_lookup_insert_eq. by eapply lookup_lt_Some.
    + exists e. by rewrite list_lookup_insert_ne.
  - (* spawn_entity *)
    intros k r Hin; simpl in *.
    assert (Hcases : (k, r) = (entityId, length (objects t))
                     ∨ (k, r) ∈ entities t ∨ (k, r) ∈ players t).
    { destruct Hin as [[?|?]%JSMap_elem_of_set|?]; auto. }
    destruct Hcases as [[= -> ->]|Hin'].
    + eexists. split; [by rewrite lookup_app_r, Nat.sub_diag by lia|done].
    + destruct (Hok k r Hin') as (e & He & Hid). exists e. split; [|done].
      by apply lookup_app_l_Some.
  - (* spawn_player *)
    intros k r Hin; simpl in *.
    assert (Hcases : (k, r) = (entityId, length (objects t))
                     ∨ (k, r) ∈ entities t ∨ (k, r) ∈ players t).
    { destruct Hin as [[?|?]%JSMap_elem_of_set|[?|?]%JSMap_elem_of_set]; auto. }
    destruct Hcases as [[= -> ->]|Hin'].
    + eexists. split; [by rewrite lookup_app_r, Nat.sub_diag by lia|done].
    + destruct (Hok k r Hin') as (e & He & Hid). exists e. split; [|done].
      by apply lookup_app_l_Some.
  - (* destroy *)
    intros k r Hin. rewrite destroy_objects.
    destruct (destroy_elem_of entityIds t k r) as [He Hp].
    apply Hok. rewrite He, Hp in Hin. tauto.
  - (* move *)
    unfold EntityTracker.on_entity_move.
    destruct (JSMap.get entityId (entities t)) as [r0|]; [|done].
    destruct (objects t !! r0) as [e0|] eqn:He0; [|done].
    intros k r Hin; simpl in *. destruct (Hok k r Hin) as (e & He & Hid).
    destruct (decide (r = r0)) as [->|Hne].
    + eexists. split; [apply list_lookup_insert_eq; by eapply lookup_lt_Some|].
      simpl; congruence.
    + exists e. by rewrite list_lookup_insert_ne.
Qed.

Lemma tracker_ok_new : tracker_ok (bot_entities new_bot).
Proof. intros k r [H|H]; by apply elem_of_nil in H. Qed.

Lemma tracker_ok_run (M : JSMath) (tr : list Input) (b : Bot) :
  tracker_ok (bot_entities b) → tracker_ok (bot_entities (run M tr b)).
Proof.
  revert b. induction tr as [|i tr IH]; intros b Hok; [done|].
  apply IH. rewrite bot_entities_step. by apply tracker_ok_step.
Qed.

(** The objects are never removed, so the list of them only grows. *)
Lemma objects_step (i : Input) (t : EntityTracker) :
  (length (objects t) ≤ length (objects (tracker_step i t)))%nat.
Proof.
  destruct i; simpl; try done.
  - unfold EntityTracker.updateMetadata. repeat case_match; simpl; [|done..].
    by rewrite length_insert.
  - rewrite length_app. lia.
  - rewrite length_app. lia.
  - by rewrite destroy_objects.
  - unfold EntityTracker.on_entity_move. repeat case_match; simpl; [|done..].
    by rewrite length_insert.
Qed.

(** A reference to an existing object that no map stores is never stored
    again: a spawn stores a new object. *)
Lemma not_stored_step (i : Input) (t : EntityTracker) (r : nat) :
  (r < length (objects t))%nat → ¬ stored r t → ¬ stored r (tracker_step i t).
Proof.
  intros Hr Hns [k Hin]. apply Hns. exists k.
  destruct i; simpl in *; try done.
  - unfold EntityTracker.updateMetadata in Hin. by repeat case_match.
  - destruct Hin as [[[= _ ->]|?]%JSMap_elem_of_set|?]; auto; lia.
  - destruct Hin as [[[= _ ->]|?]%JSMap_elem_of_set|[[= _ ->]|?]%JSMap_elem_of_set];
      auto; lia.
  - destruct (destroy_elem_of entityIds t k r) as [He Hp].
    rewrite He, Hp in Hin. tauto.
  - unfold EntityTracker.on_entity_move in Hin. by repeat case_match.
Qed.

Lemma not_stored_run (M : JSMath) (tr : list Input) (b : Bot) (r : nat) :
  (r < length (objects (bot_entities b)))%nat →
  ¬ stored r (bot_entities b) → ¬ stored r (bot_entities (run M tr b)).
Proof.
  revert b. induction tr as [|i tr IH]; intros b Hr Hns; [done|].
  apply IH; rewrite bot_entities_step.
  - pose proof (objects_step i (bot_entities b)). lia.
  - by apply not_stored_step.
Qed.

(** [findNearestEntity] returns a reference its loop went through. *)
Lemma nearest_elem_of (M : JSMath) (objs : list Entity) (pos : Vec3.t)
    (keep : Entity → bool) (refs : list nat) (ne : option nat) (nd : option Num.t)
    (r : nat) :
  EntityTracker.nearest M objs pos keep refs ne nd = Some r →
  ne = Some r ∨ r ∈ refs.
Proof.
  revert ne nd. induction refs as [|r0 refs IH]; intros ne nd; simpl; [by left|].
  intros H.
  assert (Hcases : ne = Some r ∨ Some r0 = Some r ∨ r ∈ refs).
  { repeat case_match; apply IH in H as [?|?]; auto. }
  destruct Hcases as [?|[[= ->]|?]]; [by left|right..].
  - apply list_elem_of_here.
  - by apply list_elem_of_further.
Qed.

Lemma findNearestEntity_stored (M : JSMath) (types : list string)
    (maxDistance : option Q) (b : Bot) (r : nat) :
  EntityTracker.findNearestEntity M types maxDistance b = Some r →
  stored r (bot_entities b).
Proof.
  unfold EntityTracker.findNearestEntity. intros [?|Hin]%nearest_elem_of; [done|].
  unfold JSMap.values in Hin. apply list_elem_of_fmap in Hin as ([k r'] & -> & Hin).
  exists k. by left.
Qed.

Lemma unknown_id_step (id : Z) (i : Input) (t : EntityTracker) :
  spawns id i = false → unknown_id id t → unknown_id id (tracker_step i t).
Proof.
  intros Hsp Hun r. specialize (Hun r).
  destruct i; simpl in *; try done.
  - unfold EntityTracker.updateMetadata. by repeat case_match.
  - apply Z.eqb_neq in Hsp. split; [|tauto].
    intros [[= ? _]|?]%JSMap_elem_of_set; [congruence|tauto].
  - apply Z.eqb_neq in Hsp.
    split; (intros [[= ? _]|?]%JSMap_elem_of_set; [congruence|tauto]).
  - destruct (destroy_elem_of entityIds t id r) as [He Hp].
    rewrite He, Hp. tauto.
  - unfold EntityTracker.on_entity_move. by repeat case_match.
Qed.

Lemma unknown_id_run (M : JSMath) (id : Z) (tr : list Input) (b : Bot) :
  forallb (λ i, negb (spawns id i)) tr = true →
  unknown_id id (bot_entities b) → unknown_id id (bot_entities (run M tr b)).
Proof.
  revert b. induction tr as [|i tr IH]; intros b Hsp Hun; [done|].
  simpl in Hsp. apply andb_true_iff in Hsp as [Hi Htr].
  apply IH; [done|]. rewrite bot_entities_step.
  apply unknown_id_step; [by apply negb_true_iff|done].
Qed.

Lemma unknown_id_destroyed (ids : list Z) (id : Z) (t : EntityTracker) :
  id ∈ ids → unknown_id id (EntityTracker.on_entity_destroy ids t).
Proof.
  intros Hin r. destruct (destroy_elem_of ids t id r) as [He Hp].
  rewrite He, Hp. tauto.
Qed.

(** A metadata update for an id that is not a key changes nothing. *)
Lemma metadata_unknown_id (M : JSMath) (id : Z) (metadata : list Z) (b : Bot) :
  unknown_id id (bot_entities b) →
  step M b (pkt_entity_metadata id metadata) = b.
Proof.
  intros Hun. simpl. unfold MinecraftBot.on_entity_metadata, EntityTracker.updateMetadata.
  rewrite JSMap_get_None; [by destruct b|].
  intros r. apply Hun.
Qed.

(** C8. After an [entity_destroy] packet that names [id], in any state the
    bot can reach: [id] is a key of neither the entity map nor the player
    map; as long as no spawn packet uses [id] again it stays so, and a
    metadata update for [id] changes nothing; and the objects the two maps
    held under [id] are never returned by [findNearestEntity] again,
    whatever happens afterwards, a new spawn under the same id included. *)
Theorem destroyed_entity_not_resolved (M : JSMath) (tr0 : list Input)
    (ids : list Z) (id : Z) :
  let b := run M tr0 new_bot in
  let b' := step M b (pkt_entity_destroy ids) in
  id ∈ ids →
  JSMap.get id (entities (bot_entities b')) = None
  ∧ JSMap.get id (players (bot_entities b')) = None
  ∧ (∀ tr metadata,
       forallb (λ i, negb (spawns id i)) tr = true →
       JSMap.get id (entities (bot_entities (run M tr b'))) = None
       ∧ JSMap.get id (players (bot_entities (run M tr b'))) = None
       ∧ step M (run M tr b') (pkt_entity_metadata id metadata) = run M tr b')
  ∧ (∀ r tr types maxDistance,
       JSMap.get id (entities (bot_entities b)) = Some r
       ∨ JSMap.get id (players (bot_entities b)) = Some r →
       EntityTracker.findNearestEntity M types maxDistance (run M tr b') ≠ Some r).
Proof.
  intros b b' Hin.
  assert (Hb' : bot_entities b' = EntityTracker.on_entity_destroy ids (bot_entities b))
    by apply bot_entities_step.
  assert (Hun : unknown_id id (bot_entities b'))
    by (rewrite Hb'; by apply unknown_id_destroyed).
  assert (Hok : tracker_ok (bot_entities b))
    by apply tracker_ok_run, tracker_ok_new.
  split; [apply JSMap_get_None; intros r; apply Hun|].
  split; [apply JSMap_get_None; intros r; apply Hun|].
  split.
  - intros tr metadata Hsp.
    pose proof (unknown_id_run M id tr b' Hsp Hun) as Hun'.
    split; [apply JSMap_get_None; intros r; apply Hun'|].
    split; [apply JSMap_get_None; intros r; apply Hun'|].
    by apply metadata_unknown_id.
  - intros r tr types maxDistance Hget Hnear.
    apply findNearestEntity_stored in Hnear.
    assert (Hr : ∃ e, objects (bot_entities b) !! r = Some e ∧ e_id e = id).
    { apply Hok. destruct Hget as [H|H]; apply JSMap_get_elem_of in H; auto. }
    destruct Hr as (e & He & Hid).
    revert Hnear. apply not_stored_run.
    + rewrite Hb', destroy_objects. by eapply lookup_lt_Some.
    + rewrite Hb'. intros [k Hk].
      destruct (destroy_elem_of ids (bot_entities b) k r) as [He' Hp'].
      rewrite He', Hp' in Hk.
      assert (Hk' : ((k, r) ∈ entities (bot_entities b)
                     ∨ (k, r) ∈ players (bot_entities b)) ∧ k ∉ ids) by tauto.
      destruct Hk' as [Hk' Hnot].
      destruct (Hok k r Hk') as (e' & He'' & Hid').
      apply Hnot. congruence.
Qed.

(** A zombie and a player are spawned and destroyed by one packet. *)
Lemma destroyed_entity_not_resolved_witness :
  let b := run example_math
             [pkt_connect; pkt_spawn_entity 7 "zombie" 1 0 0 0 0 0 0 0;
              pkt_spawn_player 8 "uuid-8" "Steve" 2 0 0 0 0] new_bot in
  let b' := step example_math b (pkt_entity_destroy [7; 8]%Z) in
  JSMap.get 7 (entities (bot_entities b')) = None
  ∧ JSMap.get 7 (players (bot_entities b')) = None
  ∧ (∀ tr metadata,
       forallb (λ i, negb (spawns 7 i)) tr = true →
       JSMap.get 7 (entities (bot_entities (run example_math tr b'))) = None
       ∧ JSMap.get 7 (players (bot_entities (run example_math tr b'))) = None
       ∧ step example_math (run example_math tr b') (pkt_entity_metadata 7 metadata)
         = run example_math tr b')
  ∧ (∀ r tr types maxDistance,
       JSMap.get 7 (entities (bot_entities b)) = Some r
       ∨ JSMap.get 7 (players (bot_entities b)) = Some r →
       EntityTracker.findNearestEntity example_math types maxDistance
         (run example_math tr b') ≠ Some r).
Proof.
  apply (destroyed_entity_not_resolved example_math
           [pkt_connect; pkt_spawn_entity 7 "zombie" 1 0 0 0 0 0 0 0;
            pkt_spawn_player 8 "uuid-8" "Steve" 2 0 0 0 0] ([7; 8]%Z) 7%Z).
  apply list_elem_of_here.
Defined.

(** ** C1 and C2: digging *)

(** *** What a block update does to the listeners and the promises *)

Lemma settle_lookup (p q : nat) (s : PromiseState) (b : Bot) :
  promises (settle p s b) !! q
  = if decide (q = p) then
      match promises b !! q with Some Pending => Some s | o => o end
    else promises b !! q.
Proof.
  unfold settle. case_decide as Hq.
  - subst q. destruct (promises b !! p) as [[]|] eqn:Hp; simpl; try done.
    apply list_lookup_insert_eq. by eapply lookup_lt_Some.
  - destruct (promises b !! p) as [[]|] eqn:Hp; simpl; try done.
    by apply list_lookup_insert_ne.
Qed.

Lemma settle_length (p : nat) (s : PromiseState) (b : Bot) :
  length (promises (settle p s b)) = length (promises b).
Proof.
  unfold settle. repeat case_match; simpl; try done. apply length_insert.
Qed.

Lemma settle_listeners (p : nat) (s : PromiseState) (b : Bot) :
  blockUpdate_listeners (settle p s b) = blockUpdate_listeners b.
Proof. destruct (settle_frame p s b) as [ps ->]. done. Qed.

Lemma filter_all {A : Type} (P : A → Prop) `{!∀ x, Decision (P x)} (l : list A) :
  (∀ x, P x) → filter P l = l.
Proof.
  intros HP. induction l as [|a l IH]; [done|].
  by rewrite filter_cons_True, IH.
Qed.

(** Calling the listeners [ls] with [pos]: a listener stays registered
    unless a listener that was called for its block shares its promise; the
    promises of the listeners called for their block are fulfilled if they
    were pending; no promise is added. *)
Lemma listeners_called (pos : Vec3.t) (ls : list DigListener) (b : Bot) :
  let b' := fold_left (MinecraftBot.onBlockBreak pos) ls b in
  blockUpdate_listeners b'
  = filter (λ l, dl_promise l ∉ hits pos ls) (blockUpdate_listeners b)
  ∧ length (promises b') = length (promises b)
  ∧ ∀ q, promises b' !! q
         = if decide (q ∈ hits pos ls) then
             match promises b !! q with Some Pending => Some Fulfilled | o => o end
           else promises b !! q.
Proof.
  revert b. induction ls as [|l ls IH]; intros b; simpl.
  - split; [|split; [done|]].
    + symmetry. apply filter_all. intros l. apply not_elem_of_nil.
    + done.
  - unfold MinecraftBot.onBlockBreak at 2 4 6.
    unfold hits. rewrite filter_cons.
    destruct (MinecraftBot.same_block pos l) eqn:Hhit.
    + rewrite decide_True by done. simpl.
      destruct (IH (settle (dl_promise l) Fulfilled (MinecraftBot.removeListener l b)))
        as (IHl & IHn & IHp).
      fold (hits pos ls) in *.
      split; [|split].
      * rewrite IHl, settle_listeners. simpl. rewrite list_filter_filter.
        apply list_filter_iff. intros l'. rewrite not_elem_of_cons. tauto.
      * rewrite IHn, settle_length. done.
      * intros q. rewrite IHp, settle_lookup. simpl.
        destruct (decide (q = dl_promise l)) as [->|Hq];
          destruct (decide (_ ∈ hits pos ls)) as [Hin|Hin].
        -- rewrite decide_True by apply list_elem_of_here.
           by destruct (promises b !! dl_promise l) as [[]|].
        -- by rewrite decide_True by apply list_elem_of_here.
        -- by rewrite decide_True by (by apply list_elem_of_further).
        -- rewrite decide_False; [done|]. rewrite not_elem_of_cons. tauto.
    + rewrite decide_False by done. apply IH.
Qed.

(** *** What an input does to the listeners and the promises *)

Lemma dig_step (M : JSMath) (b : Bot) (i : Input) :
  match i with
  | pkt_block_change x y z _ =>
      blockUpdate_listeners (step M b i)
      = filter (λ l, dl_promise l ∉ hits (vec3 x y z) (blockUpdate_listeners b))
          (blockUpdate_listeners b)
      ∧ length (promises (step M b i)) = length (promises b)
      ∧ ∀ q, promises (step M b i) !! q
             = if decide (q ∈ hits (vec3 x y z) (blockUpdate_listeners b)) then
                 match promises b !! q with
                 | Some Pending => Some Fulfilled
                 | o => o
                 end
               else promises b !! q
  | call_mineBlock x y z =>
      blockUpdate_listeners (step M b i)
      = blockUpdate_listeners b
        ++ [ {| dl_promise := length (promises b); dl_x := x; dl_y := y; dl_z := z |} ]
      ∧ promises (step M b i) = promises b ++ [Pending]
  | call_craft _ _ =>
      blockUpdate_listeners (step M b i) = blockUpdate_listeners b
      ∧ ∃ s, promises (step M b i) = promises b ++ [s]
  | _ =>
      blockUpdate_listeners (step M b i) = blockUpdate_listeners b
      ∧ promises (step M b i) = promises b
  end.
Proof.
  destruct i; try (step_cases; done).
  - (* block_change *)
    simpl. unfold MinecraftBot.on_block_change, MinecraftBot.emit_blockUpdate.
    match goal with |- context [fold_left (MinecraftBot.onBlockBreak ?pos) ?ls ?b0] =>
      apply (listeners_called pos ls b0) end.
  - (* craft *)
    simpl. destruct (craft_promises M itemName count b) as (cmds & wo & s & ->).
    split; [done|]. by exists s.
Qed.

(** *** The invariant of the listeners *)

Lemma dig_wf_step (M : JSMath) (b : Bot) (i : Input) :
  dig_wf b → dig_wf (step M b i).
Proof.
  intros [Hnd Hlt]. pose proof (dig_step M b i) as Hstep. unfold dig_wf.
  destruct i; cbv beta iota in Hstep;
    try (destruct Hstep as [-> ->]; by split).
  - (* block_change *)
    destruct Hstep as (-> & -> & _). split.
    + eapply sublist_NoDup; [exact Hnd|]. apply fmap_sublist, sublist_filter.
    + intros l [_ Hl]%list_elem_of_filter. by apply Hlt.
  - (* mineBlock *)
    destruct Hstep as [-> ->]. split.
    + rewrite fmap_app. apply NoDup_app. split; [done|]. split; [|apply NoDup_singleton].
      intros p (l & -> & Hl)%list_elem_of_fmap Hp%list_elem_of_singleton.
      simpl in Hp. specialize (Hlt l Hl). lia.
    + intros l [Hl|Hl%list_elem_of_singleton]%elem_of_app; rewrite length_app; simpl.
      * specialize (Hlt l Hl). lia.
      * subst l. simpl. lia.
  - (* craft *)
    destruct Hstep as (-> & s & ->). split; [done|].
    intros l Hl. rewrite length_app. specialize (Hlt l Hl). lia.
Qed.

Lemma dig_wf_run (M : JSMath) (tr : list Input) (b : Bot) :
  dig_wf b → dig_wf (run M tr b).
Proof.
  revert b. induction tr as [|i tr IH]; intros b Hwf; [done|].
  apply IH. by apply dig_wf_step.
Qed.

Lemma dig_wf_new : dig_wf new_bot.
Proof. split; [apply NoDup_nil_2|]. intros l Hl. by apply elem_of_nil in Hl. Qed.

(** *** One dig, from the call to its resolution *)

Lemma same_promise_same_listener (ls : list DigListener) (l l' : DigListener) :
  NoDup (dl_promise <$> ls) → l ∈ ls → l' ∈ ls →
  dl_promise l = dl_promise l' → l = l'.
Proof.
  induction ls as [|l0 ls IH]; [by intros _ H%elem_of_nil|].
  rewrite fmap_cons, NoDup_cons.
  intros [Hnotin Hnd] [->|Hl]%elem_of_cons [->|Hl']%elem_of_cons Heq; [done|..].
  - exfalso. apply Hnotin. rewrite Heq. by apply list_elem_of_fmap_2.
  - exfalso. apply Hnotin. rewrite <- Heq. by apply list_elem_of_fmap_2.
  - by apply IH.
Qed.

(** An input that is not a block change at its block leaves an active dig
    active. *)
Lemma active_step (M : JSMath) (b : Bot) (i : Input) (l : DigListener) :
  dig_wf b → active l b →
  block_change_at (dl_x l) (dl_y l) (dl_z l) i = false →
  active l (step M b i).
Proof.
  intros [Hnd Hlt] [Hl Hp] Hi. pose proof (dig_step M b i) as Hstep.
  unfold active.
  destruct i; cbv beta iota in Hstep;
    try (destruct Hstep as [-> ->]; by split).
  - (* block_change *)
    destruct Hstep as (-> & _ & Hq).
    assert (Hnot : dl_promise l ∉ hits (vec3 x y z) (blockUpdate_listeners b)).
    { intros (l' & Heq & [Hsame Hl']%list_elem_of_filter)%list_elem_of_fmap.
      assert (l = l') as <- by (by eapply same_promise_same_listener).
      unfold MinecraftBot.same_block in Hsame. simpl in *. congruence. }
    split.
    + by apply list_elem_of_filter.
    + by rewrite Hq, decide_False.
  - (* mineBlock *)
    destruct Hstep as [-> ->]. split.
    + apply elem_of_app. by left.
    + by apply lookup_app_l_Some.
  - (* craft *)
    destruct Hstep as (-> & s & ->). split; [done|]. by apply lookup_app_l_Some.
Qed.

(** A block change at its block fulfils the promise of an active dig. *)
Lemma active_hit (M : JSMath) (b : Bot) (i : Input) (l : DigListener) :
  active l b →
  block_change_at (dl_x l) (dl_y l) (dl_z l) i = true →
  promises (step M b i) !! dl_promise l = Some Fulfilled.
Proof.
  intros [Hl Hp] Hi. pose proof (dig_step M b i) as Hstep.
  destruct i; simpl in Hi; try done.
  destruct Hstep as (_ & _ & ->).
  rewrite decide_True, Hp; [done|].
  apply list_elem_of_fmap. exists l. split; [done|].
  by apply list_elem_of_filter.
Qed.

(** A fulfilled promise stays fulfilled. *)
Lemma fulfilled_step (M : JSMath) (b : Bot) (i : Input) (p : nat) :
  promises b !! p = Some Fulfilled → promises (step M b i) !! p = Some Fulfilled.
Proof.
  intros Hp. pose proof (dig_step M b i) as Hstep.
  destruct i; cbv beta iota in Hstep;
    try (destruct Hstep as [_ ->]; done).
  - destruct Hstep as (_ & _ & ->). rewrite Hp. by case_decide.
  - destruct Hstep as [_ ->]. by apply lookup_app_l_Some.
  - destruct Hstep as (_ & s & ->). by apply lookup_app_l_Some.
Qed.

Lemma fulfilled_run (M : JSMath) (tr : list Input) (b : Bot) (p : nat) :
  promises b !! p = Some Fulfilled → promises (run M tr b) !! p = Some Fulfilled.
Proof.
  revert b. induction tr as [|i tr IH]; intros b Hp; [done|].
  apply IH. by apply fulfilled_step.
Qed.

(** The promise of an active dig is fulfilled by the first block change at
    its block, of whatever block type, and by nothing else: after the inputs
    [tr] it is fulfilled if there was one among them and pending if there
    was none. *)
Lemma dig_resolution (M : JSMath) (tr : list Input) (b : Bot) (l : DigListener) :
  dig_wf b → active l b →
  promises (run M tr b) !! dl_promise l
  = Some (if existsb (block_change_at (dl_x l) (dl_y l) (dl_z l)) tr
          then Fulfilled else Pending).
Proof.
  revert b. induction tr as [|i tr IH]; intros b Hwf Hact; [by destruct Hact|].
  simpl. destruct (block_change_at _ _ _ i) eqn:Hi; simpl.
  - apply fulfilled_run. by apply active_hit.
  - apply IH; [by apply dig_wf_step|by apply active_step].
Qed.

(** [mineBlock] writes the start-dig command, hands out a new promise, and
    leaves an active dig. *)
Lemma mineBlock_active (M : JSMath) (x y z : Q) (b : Bot) :
  dig_wf b →
  let l := {| dl_promise := length (promises b); dl_x := x; dl_y := y; dl_z := z |} in
  fst (MinecraftBot.mineBlock x y z b) = length (promises b)
  ∧ written (snd (MinecraftBot.mineBlock x y z b))
    = written b ++ [w_block_dig 0 (vec3 x y z) 1]
  ∧ dig_wf (snd (MinecraftBot.mineBlock x y z b))
  ∧ active l (snd (MinecraftBot.mineBlock x y z b)).
Proof.
  intros Hwf l. split; [done|]. split; [done|]. split.
  - apply (dig_wf_step M b (call_mineBlock x y z) Hwf).
  - split; simpl.
    + apply elem_of_app. right. by apply list_elem_of_singleton.
    + by rewrite lookup_app_r, Nat.sub_diag by lia.
Qed.

Lemma active_run (M : JSMath) (tr : list Input) (b : Bot) (l : DigListener) :
  dig_wf b → active l b →
  existsb (block_change_at (dl_x l) (dl_y l) (dl_z l)) tr = false →
  active l (run M tr b).
Proof.
  revert b. induction tr as [|i tr IH]; intros b Hwf Hact Hno; [done|].
  simpl in Hno. apply orb_false_iff in Hno as [Hi Htr].
  apply IH; [by apply dig_wf_step|by apply active_step|done].
Qed.

Lemma air_change_is_block_change (x y z : Q) (tr : list Input) :
  existsb (air_change_at x y z) tr = true →
  existsb (block_change_at x y z) tr = true.
Proof.
  rewrite !existsb_exists. intros (i & Hin & Hi). exists i. split; [done|].
  destruct i; simpl in *; try done. by apply andb_true_iff in Hi as [? _].
Qed.

(** C1 (as the code has it). A dig, issued in any state the bot can reach,
    is fulfilled once a block-change packet for exactly its block that
    reports air has arrived, however late: [mineBlock] sets no deadline.
    While no block-change packet for its block has arrived the dig stays
    pending, whatever else arrives and however many timers and ticks go by:
    it is never resolved as timed out. *)
Theorem dig_fulfilled_without_deadline (M : JSMath) (tr0 tr : list Input)
    (x y z : Q) :
  let b0 := run M tr0 new_bot in
  let p := fst (MinecraftBot.mineBlock x y z b0) in
  let b := run M tr (snd (MinecraftBot.mineBlock x y z b0)) in
  (existsb (air_change_at x y z) tr = true → promises b !! p = Some Fulfilled)
  ∧ (existsb (block_change_at x y z) tr = false → promises b !! p = Some Pending).
Proof.
  intros b0 p b.
  assert (Hwf0 : dig_wf b0) by apply dig_wf_run, dig_wf_new.
  destruct (mineBlock_active M x y z b0 Hwf0) as (Hp & _ & Hwf & Hact).
  pose proof (dig_resolution M tr _ _ Hwf Hact) as Hres. simpl in Hres.
  fold b in Hres. fold p in Hp. rewrite Hp.
  split; intros H.
  - apply air_change_is_block_change in H. by rewrite H in Hres.
  - by rewrite H in Hres.
Qed.

Lemma dig_fulfilled_without_deadline_witness :
  let b0 := run example_math [pkt_connect] new_bot in
  let p := fst (MinecraftBot.mineBlock 1 2 3 b0) in
  promises (run example_math (one_minute ++ [pkt_block_change 1 2 3 0])
              (snd (MinecraftBot.mineBlock 1 2 3 b0))) !! p = Some Fulfilled
  ∧ promises (run example_math (pkt_block_change 1 2 4 0 :: one_minute)
                (snd (MinecraftBot.mineBlock 1 2 3 b0))) !! p = Some Pending.
Proof.
  split.
  - apply (proj1 (dig_fulfilled_without_deadline example_math [pkt_connect]
                    (one_minute ++ [pkt_block_change 1 2 3 0]) 1 2 3)).
    vm_compute. reflexivity.
  - apply (proj2 (dig_fulfilled_without_deadline example_math [pkt_connect]
                    (pkt_block_change 1 2 4 0 :: one_minute) 1 2 3)).
    vm_compute. reflexivity.
Defined.

(** A dig on a connected bot, then a minute in which no block change
    arrives: the finish-dig timer and 1200 ticks later the promise is still
    pending, not resolved as timed out as C1 has it. *)
Lemma dig_never_times_out :
  let b0 := run example_math [pkt_connect] new_bot in
  let p := fst (MinecraftBot.mineBlock 1 2 3 b0) in
  promises (run example_math one_minute (snd (MinecraftBot.mineBlock 1 2 3 b0))) !! p
  = Some Pending.
Proof.
  intros b0 p.
  assert (Hwf0 : dig_wf b0) by apply dig_wf_run, dig_wf_new.
  destruct (mineBlock_active example_math 1 2 3 b0 Hwf0) as (Hp & _ & Hwf & Hact).
  pose proof (dig_resolution example_math one_minute _ _ Hwf Hact) as Hres.
  cbn [dl_promise dl_x dl_y dl_z] in Hres.
  assert (Hno : existsb (block_change_at 1 2 3) one_minute = false)
    by (vm_compute; reflexivity).
  rewrite Hno in Hres. exact Hres.
Qed.

(** The listener does not look at the block type: a block change to stone
    at the block of a dig fulfils it as well. *)
Example dig_fulfilled_by_stone :
  let b0 := run example_math [pkt_connect] new_bot in
  let p := fst (MinecraftBot.mineBlock 1 2 3 b0) in
  promises (run example_math [pkt_block_change 1 2 3 1]
              (snd (MinecraftBot.mineBlock 1 2 3 b0))) !! p = Some Fulfilled.
Proof. reflexivity. Qed.

(** C2 (as the code has it). [mineBlock] on a block on which a dig is still
    active does not fail: like the first call it writes a start-dig command
    and returns a new promise, pending and not rejected.  The first dig is
    left as it was, registered and pending, and whatever comes next its
    promise ends as it would have without the second call; the promise of
    the second call ends the same way. *)
Theorem second_dig_is_accepted (M : JSMath) (tr0 tr1 tr : list Input) (x y z : Q) :
  let b0 := run M tr0 new_bot in
  let p1 := fst (MinecraftBot.mineBlock x y z b0) in
  let b1 := run M tr1 (snd (MinecraftBot.mineBlock x y z b0)) in
  let p2 := fst (MinecraftBot.mineBlock x y z b1) in
  let b2 := snd (MinecraftBot.mineBlock x y z b1) in
  existsb (block_change_at x y z) tr1 = false →
  p2 ≠ p1
  ∧ promises b2 !! p2 = Some Pending
  ∧ written b2 = written b1 ++ [w_block_dig 0 (vec3 x y z) 1]
  ∧ promises b2 !! p1 = Some Pending
  ∧ {| dl_promise := p1; dl_x := x; dl_y := y; dl_z := z |} ∈ blockUpdate_listeners b2
  ∧ promises (run M tr b2) !! p1 = promises (run M tr b1) !! p1
  ∧ promises (run M tr b2) !! p2 = promises (run M tr b2) !! p1.
Proof.
  intros b0 p1 b1 p2 b2 Hno.
  assert (Hwf0 : dig_wf b0) by apply dig_wf_run, dig_wf_new.
  destruct (mineBlock_active M x y z b0 Hwf0) as (Hp1 & _ & Hwf & Hact).
  fold p1 in Hp1. rewrite <- Hp1 in Hact.
  set (l1 := {| dl_promise := p1; dl_x := x; dl_y := y; dl_z := z |}) in *.
  assert (Hwf1 : dig_wf b1) by (by apply dig_wf_run).
  assert (Hact1 : active l1 b1) by (by apply active_run).
  destruct (mineBlock_active M x y z b1 Hwf1) as (Hp2 & Hw & Hwf2 & Hact2).
  fold p2 in Hp2. fold b2 in Hw, Hwf2, Hact2. rewrite <- Hp2 in Hact2.
  set (l2 := {| dl_promise := p2; dl_x := x; dl_y := y; dl_z := z |}) in *.
  assert (Hact12 : active l1 b2)
    by (by apply (active_step M b1 (call_mineBlock x y z) l1)).
  pose proof (dig_resolution M tr b1 l1 Hwf1 Hact1) as Hr1.
  pose proof (dig_resolution M tr b2 l1 Hwf2 Hact12) as Hr12.
  pose proof (dig_resolution M tr b2 l2 Hwf2 Hact2) as Hr2.
  simpl in Hr1, Hr12, Hr2.
  split.
  - destruct Hwf1 as [_ Hlt]. destruct Hact1 as [Hin _].
    specialize (Hlt l1 Hin). simpl in Hlt. lia.
  - split; [apply Hact2|]. split; [done|]. split; [apply Hact12|].
    split; [apply Hact12|]. split; congruence.
Qed.

Lemma second_dig_is_accepted_witness :
  let b1 := run example_math [tick_physics; tick_combat]
              (snd (MinecraftBot.mineBlock 1 2 3 (run example_math [pkt_connect] new_bot))) in
  let b2 := snd (MinecraftBot.mineBlock 1 2 3 b1) in
  1%nat ≠ 0%nat
  ∧ promises b2 !! 1%nat = Some Pending
  ∧ written b2 = written b1 ++ [w_block_dig 0 (vec3 1 2 3) 1]
  ∧ promises b2 !! 0%nat = Some Pending
  ∧ {| dl_promise := 0; dl_x := 1; dl_y := 2; dl_z := 3 |} ∈ blockUpdate_listeners b2
  ∧ promises (run example_math [pkt_block_change 1 2 3 0] b2) !! 0%nat
    = promises (run example_math [pkt_block_change 1 2 3 0] b1) !! 0%nat
  ∧ promises (run example_math [pkt_block_change 1 2 3 0] b2) !! 1%nat
    = promises (run example_math [pkt_block_change 1 2 3 0] b2) !! 0%nat.
Proof.
  apply (second_dig_is_accepted example_math [pkt_connect]
           [tick_physics; tick_combat] [pkt_block_change 1 2 3 0] 1 2 3).
  reflexivity.
Defined.

(** Two calls of [mineBlock] for the same block in a row: the second is not
    rejected, as C2 has it, but accepted; both promises are pending, both
    listeners are registered and the start-dig command went out twice. *)
Lemma second_dig_not_rejected :
  let b1 := snd (MinecraftBot.mineBlock 1 2 3 new_bot) in
  let p2 := fst (MinecraftBot.mineBlock 1 2 3 b1) in
  let b2 := snd (MinecraftBot.mineBlock 1 2 3 b1) in
  promises b2 !! p2 = Some Pending
  ∧ promises b2 = [Pending; Pending]
  ∧ written b2 = [w_block_dig 0 (vec3 1 2 3) 1; w_block_dig 0 (vec3 1 2 3) 1]
  ∧ blockUpdate_listeners b2
    = [ {| dl_promise := 0; dl_x := 1; dl_y := 2; dl_z := 3 |};
        {| dl_promise := 1; dl_x := 1; dl_y := 2; dl_z := 3 |} ].
Proof. repeat split. Qed.

(** * Further properties *)

(** ** The inventory *)

(** The loop of [findItem] from index [i]: what it returns is in the list,
    matches, and is the first that does; when it returns nothing, nothing
    matches. *)
Lemma findItem_from_spec (itemName : ItemKey) (l : list (option Item)) (i : nat) :
  match Inventory.findItem_from i l itemName with
  | Some (item, k) =>
      (i ≤ k)%nat
      ∧ l !! (k - i)%nat = Some (Some item)
      ∧ Inventory.matches itemName item = true
      ∧ ∀ j item', (j < k - i)%nat → l !! j = Some (Some item') →
                   Inventory.matches itemName item' = false
  | None =>
      ∀ j item', l !! j = Some (Some item') →
                 Inventory.matches itemName item' = false
  end.
Proof.
  revert i. induction l as [|[item0|] l IH]; intros i; simpl.
  - intros j item' H. by rewrite lookup_nil in H.
  - destruct (Inventory.matches itemName item0) eqn:Hm.
    + rewrite Nat.sub_diag. repeat split; [lia|done|]. intros j item' Hj. lia.
    + specialize (IH (S i)).
      destruct (Inventory.findItem_from (S i) l itemName) as [[item k]|].
      * destruct IH as (Hle & Hk & Hmk & Hfirst).
        replace (k - i)%nat with (S (k - S i)) by lia.
        repeat split; [lia|done|done|].
        intros [|j] item' Hj Hl; simpl in Hl; [congruence|].
        apply (Hfirst j); [lia|done].
      * intros [|j] item' Hl; simpl in Hl; [congruence|]. by apply (IH j).
  - specialize (IH (S i)).
    destruct (Inventory.findItem_from (S i) l itemName) as [[item k]|].
    + destruct IH as (Hle & Hk & Hmk & Hfirst).
      replace (k - i)%nat with (S (k - S i)) by lia.
      repeat split; [lia|done|done|].
      intros [|j] item' Hj Hl; simpl in Hl; [congruence|].
      apply (Hfirst j); [lia|done].
    + intros [|j] item' Hl; simpl in Hl; [congruence|]. by apply (IH j).
Qed.

(** X1. [findItem] returns the first slot that holds a matching item: the
    slot it names holds the item it returns, the item matches (by name or by
    id), and no slot before it holds a matching item.  It returns [null]
    exactly when no slot holds a matching item; empty slots are skipped. *)
Theorem findItem_first_match (itemName : ItemKey) (inv : Inventory) :
  match Inventory.findItem itemName inv with
  | Some (item, k) =>
      slots inv !! k = Some (Some item)
      ∧ Inventory.matches itemName item = true
      ∧ ∀ j item', (j < k)%nat → slots inv !! j = Some (Some item') →
                   Inventory.matches itemName item' = false
  | None =>
      ∀ j item', slots inv !! j = Some (Some item') →
                 Inventory.matches itemName item' = false
  end.
Proof.
  unfold Inventory.findItem.
  pose proof (findItem_from_spec itemName (slots inv) 0) as H.
  destruct (Inventory.findItem_from 0 (slots inv) itemName) as [[item k]|]; [|done].
  rewrite Nat.sub_0_r in H. tauto.
Qed.

(** What [this.slots[i] = item] leaves at the index [i], inside the array
    or past its end. *)
Lemma on_set_slot_lookup (i : Z) (item : option Item) (inv : Inventory) :
  (0 ≤ i)%Z →
  slots (Inventory.on_set_slot i item inv) !! Z.to_nat i = Some item.
Proof.
  intros Hi. unfold Inventory.on_set_slot.
  replace (Z.leb 0 i) with true by (symmetry; by apply Z.leb_le).
  simpl. case_decide as Hlt.
  - by apply list_lookup_insert_eq.
  - rewrite lookup_app_r by lia. rewrite lookup_app_r; rewrite length_replicate; [|lia].
    by rewrite Nat.sub_diag.
Qed.

(** X2. An item that a [set_slot] packet puts into a slot with an index
    that is not negative is found by [findItem] under its name, in that slot
    or in an earlier one that holds an item of the same name; the array is
    extended when the index is past its end.  A [set_slot] packet with a
    negative index (the cursor) changes nothing [findItem] sees. *)
Theorem set_slot_then_findItem (i : Z) (item : Item) (inv : Inventory) :
  ((0 ≤ i)%Z →
   ∃ found k,
     Inventory.findItem (ByName (item_name item))
       (Inventory.on_set_slot i (Some item) inv) = Some (found, k)
     ∧ (k ≤ Z.to_nat i)%nat
     ∧ item_name found = item_name item)
  ∧ ((i < 0)%Z →
     ∀ itemName,
       Inventory.findItem itemName (Inventory.on_set_slot i (Some item) inv)
       = Inventory.findItem itemName inv).
Proof.
  split; intros Hi.
  - pose proof (on_set_slot_lookup i (Some item) inv Hi) as Hl.
    pose proof (findItem_from_spec (ByName (item_name item))
                  (slots (Inventory.on_set_slot i (Some item) inv)) 0) as H.
    unfold Inventory.findItem.
    destruct (Inventory.findItem_from 0 _ _) as [[found k]|].
    + destruct H as (_ & Hk & Hm & Hfirst). rewrite Nat.sub_0_r in *.
      exists found, k. split; [done|]. split.
      * destruct (decide (k ≤ Z.to_nat i)%nat); [done|].
        assert (Hno : Inventory.matches (ByName (item_name item)) item = false)
          by (apply (Hfirst (Z.to_nat i)); [lia|done]).
        simpl in Hno. by rewrite String.eqb_refl in Hno.
      * simpl in Hm. by apply String.eqb_eq in Hm.
    + specialize (H _ _ Hl). simpl in H. by rewrite String.eqb_refl in H.
  - intros itemName. unfold Inventory.findItem, Inventory.on_set_slot.
    by replace (Z.leb 0 i) with false by (symmetry; apply Z.leb_gt; lia).
Qed.

Lemma set_slot_then_findItem_witness :
  (∃ found k,
     Inventory.findItem (ByName "planks")
       (Inventory.on_set_slot 50
          (Some {| item_name := "planks"; item_id := 5; item_count := 3 |})
          (inventory new_bot)) = Some (found, k)
     ∧ (k ≤ 50)%nat
     ∧ item_name found = "planks")
  ∧ (∀ itemName,
       Inventory.findItem itemName
         (Inventory.on_set_slot (-1)
            (Some {| item_name := "planks"; item_id := 5; item_count := 3 |})
            (inventory new_bot))
       = Inventory.findItem itemName (inventory new_bot)).
Proof.
  split.
  - apply (proj1 (set_slot_then_findItem 50
             {| item_name := "planks"; item_id := 5; item_count := 3 |}
             (inventory new_bot))). lia.
  - apply (proj2 (set_slot_then_findItem (-1)
             {| item_name := "planks"; item_id := 5; item_count := 3 |}
             (inventory new_bot))). lia.
Defined.

(** What one input does to the selected slot: nothing, or a hotbar slot. *)
Lemma selectedSlot_step (M : JSMath) (b : Bot) (i : Input) :
  selectedSlot (inventory (step M b i)) = selectedSlot (inventory b)
  ∨ hotbar (selectedSlot (inventory (step M b i))).
Proof.
  destruct i; step_cases; auto.
  - unfold Inventory.on_set_slot. case_match; auto.
  - right. unfold hotbar.
    match goal with H : _ || _ = false |- _ =>
      apply orb_false_iff in H as [?%Z.ltb_ge ?%Z.ltb_ge] end. lia.
Qed.

(** X3. The selected hotbar slot is always one of 0..8: the constructor
    selects slot 0, [selectSlot] refuses every other value, and no packet
    handler (the inventory handlers among them) touches the selection. *)
Theorem selectedSlot_always_hotbar (M : JSMath) (tr : list Input) :
  hotbar (selectedSlot (inventory (run M tr new_bot))).
Proof.
  assert (H : ∀ b, hotbar (selectedSlot (inventory b)) →
                   hotbar (selectedSlot (inventory (run M tr b)))).
  { induction tr as [|i tr IH]; intros b Hb; [done|].
    apply IH. destruct (selectedSlot_step M b i) as [->|?]; done. }
  apply H. unfold hotbar. simpl. lia.
Qed.

(** ** The world: block keys *)

Lemma occurs_app (c : ascii) (a r : string) :
  occurs c (a +:+ r) = occurs c a || occurs c r.
Proof. induction a as [|c' a IH]; simpl; [done|]. by rewrite IH, orb_assoc. Qed.

(** Two strings cut at the first occurrence of a separator are equal when
    their parts are. *)
Lemma split_at_separator (c : ascii) (a a' r r' : string) :
  occurs c a = false → occurs c a' = false →
  a +:+ String c r = a' +:+ String c r' → a = a' ∧ r = r'.
Proof.
  revert a'. induction a as [|c0 a IH]; intros [|c0' a']; simpl.
  - by intros _ _ [= ->].
  - intros _ [Hc _]%orb_false_iff [= <- _]. by rewrite Ascii.eqb_refl in Hc.
  - intros [Hc _]%orb_false_iff _ [= -> _]. by rewrite Ascii.eqb_refl in Hc.
  - intros [_ Ha]%orb_false_iff [_ Ha']%orb_false_iff [= -> Heq].
    destruct (IH a' Ha Ha' Heq) as [-> ->]. done.
Qed.

(** Neither a comma nor a slash nor an [N] occurs in the decimal spelling of
    an integer. *)
Lemma occurs_pretty_N_go (c : ascii) (x : N) (s : string) :
  c = ","%char ∨ c = "/"%char ∨ c = "N"%char →
  occurs c (pretty_N_go x s) = occurs c s.
Proof.
  intros Hc. revert s. induction (N.lt_wf_0 x) as [x _ IH]; intros s.
  assert (x = 0 ∨ 0 < x)%N as [->|Hx] by lia; [by rewrite pretty_N_go_0|].
  rewrite pretty_N_go_step by done. rewrite IH by (by apply N.div_lt).
  simpl. unfold pretty_N_char.
  destruct Hc as [-> | [-> | ->]]; by repeat case_match.
Qed.

Lemma occurs_pretty_positive (c : ascii) (x : positive) :
  c = ","%char ∨ c = "/"%char ∨ c = "N"%char → occurs c (pretty x) = false.
Proof.
  intros Hc. unfold pretty, pretty_positive, pretty, pretty_N.
  case_decide; [done|]. by rewrite occurs_pretty_N_go.
Qed.

Lemma occurs_pretty_Z (c : ascii) (x : Z) :
  c = ","%char ∨ c = "/"%char ∨ c = "N"%char → occurs c (pretty x) = false.
Proof.
  intros Hc. destruct x as [|x|x]; unfold pretty, pretty_Z.
  - by destruct Hc as [-> | [-> | ->]].
  - by apply occurs_pretty_positive.
  - rewrite occurs_app, occurs_pretty_positive by done.
    by destruct Hc as [-> | [-> | ->]].
Qed.

Lemma occurs_comma_Number_toString (a : Num.t) :
  occurs "," (Number_toString a) = false.
Proof.
  destruct a as [q|]; [|done]. unfold Number_toString. case_match.
  - apply occurs_pretty_Z. by left.
  - rewrite !occurs_app.
    rewrite occurs_pretty_Z, occurs_pretty_positive by (by left). done.
Qed.

(** The spelling of a rational is not the spelling of [NaN]. *)
Lemma occurs_N_Number_toString (q : Q) :
  occurs "N" (Number_toString q) = false.
Proof.
  unfold Number_toString. case_match.
  - apply occurs_pretty_Z. right. by right.
  - rewrite !occurs_app.
    rewrite occurs_pretty_Z, occurs_pretty_positive by (right; by right). done.
Qed.

(** The spelling of a number determines the number. *)
Lemma Number_toString_inj (a a' : Num.t) :
  Number_toString a = Number_toString a' → same_number a a' = true.
Proof.
  intros Heq. destruct a as [q|], a' as [q'|]; [| | |done].
  2:{ apply (f_equal (occurs "N")) in Heq.
      by rewrite occurs_N_Number_toString in Heq. }
  2:{ apply (f_equal (occurs "N")) in Heq.
      by rewrite occurs_N_Number_toString in Heq. }
  unfold same_number, strict_eq. apply Qeq_bool_iff.
  assert (Hred : Qred q = Qred q'); [|by apply Qred_eq_iff].
  unfold Number_toString in Heq.
  destruct (Qred q) as [n d], (Qred q') as [n' d']. cbn [Qnum Qden] in Heq.
  assert (Hslash : ∀ (m : Z) (e : positive),
            occurs "/" (pretty m +:+ "/" +:+ pretty e) = true).
  { intros m e. rewrite !occurs_app. simpl. by rewrite orb_true_r. }
  assert (Hc : "/"%char = ","%char ∨ "/"%char = "/"%char ∨ "/"%char = "N"%char)
    by (right; by left).
  destruct (Pos.eqb_spec d 1) as [Hd|Hd]; destruct (Pos.eqb_spec d' 1) as [Hd'|Hd'].
  - subst. by apply (inj pretty) in Heq as ->.
  - apply (f_equal (occurs "/")) in Heq.
    rewrite Hslash, occurs_pretty_Z in Heq by done. done.
  - apply (f_equal (occurs "/")) in Heq.
    rewrite Hslash, occurs_pretty_Z in Heq by done. done.
  - apply split_at_separator in Heq as [Hn Hd'']; try (by apply occurs_pretty_Z).
    apply (inj pretty) in Hn as ->. by apply (inj pretty) in Hd'' as ->.
Qed.

Lemma Number_toString_proper (a a' : Num.t) :
  same_number a a' = true → Number_toString a = Number_toString a'.
Proof.
  destruct a as [q|], a' as [q'|]; try done.
  unfold same_number, strict_eq. intros Heq%Qeq_bool_iff.
  unfold Number_toString. by rewrite (Qred_complete q q' Heq).
Qed.

(** Two positions have the same key exactly when they have the same
    coordinates. *)
Lemma key_eq_iff (p p' : Vec3.t) :
  World.key p = World.key p' ↔ same_position p p' = true.
Proof.
  unfold World.key, same_position.
  rewrite !andb_true_iff. split.
  - intros Heq.
    apply split_at_separator in Heq as [Hx Heq];
      try apply occurs_comma_Number_toString.
    apply split_at_separator in Heq as [Hy Hz];
      try apply occurs_comma_Number_toString.
    auto using Number_toString_inj.
  - intros [[Hx Hy] Hz].
    by rewrite (Number_toString_proper _ _ Hx), (Number_toString_proper _ _ Hy),
      (Number_toString_proper _ _ Hz).
Qed.

(** X4. The block map is keyed by position and the last write wins: after
    [setBlock(p', t)], [getBlock(p)] answers [t] when [p] has the coordinates
    of [p'], and what it answered before when [p] differs from [p'] in some
    coordinate.  The key [`${x},${y},${z}`] never confuses two positions (a
    coordinate that is [NaN] is spelled [NaN], and is the same as [NaN]
    only). *)
Theorem getBlock_setBlock (p p' : Vec3.t) (blockType : Z) (w : World) :
  World.getBlock p (World.setBlock p' blockType w)
  = if same_position p p' then blockType else World.getBlock p w.
Proof.
  unfold World.getBlock, World.setBlock. simpl.
  destruct (same_position p p') eqn:Hsame.
  - apply key_eq_iff in Hsame as ->. by rewrite lookup_insert_eq.
  - rewrite lookup_insert_ne; [done|]. intros Heq. symmetry in Heq.
    apply key_eq_iff in Heq. congruence.
Qed.

(** The same at the level of the map, for the handlers that write it. *)
Lemma getBlock_setBlock_aux (p p' : Vec3.t) (blockType : Z) (w : World) :
  default 0%Z (blocks (World.setBlock p' blockType w) !! World.key p)
  = if same_position p p' then blockType else World.getBlock p w.
Proof.
  unfold World.getBlock, World.setBlock. simpl.
  destruct (same_position p p') eqn:Hsame.
  - apply key_eq_iff in Hsame as ->. by rewrite lookup_insert_eq.
  - rewrite lookup_insert_ne; [done|]. intros Heq. symmetry in Heq.
    apply key_eq_iff in Heq. congruence.
Qed.

(** ** The world over time *)

(** No input but a block change touches the block map. *)
Lemma blocks_step (M : JSMath) (b : Bot) (i : Input) :
  blocks (world (step M b i))
  = match i with
    | pkt_block_change x y z type =>
        blocks (World.setBlock (vec3 x y z) type (world b))
    | _ => blocks (world b)
    end.
Proof.
  destruct i; step_cases; reflexivity.
Qed.

Lemma getBlock_step (M : JSMath) (p : Vec3.t) (b : Bot) (i : Input) :
  World.getBlock p (world (step M b i))
  = block_after p (World.getBlock p (world b)) i.
Proof.
  unfold World.getBlock at 1. rewrite blocks_step.
  destruct i; try reflexivity.
  apply (getBlock_setBlock_aux p (vec3 x y z) type (world b)).
Qed.

(** X5. What [getBlock] answers for a position is the type of the most
    recent [block_change] packet for that position, and 0 when there was
    none: no other input writes the block map, the [map_chunk] packets
    included, whose data [_processChunkData] drops. *)
Theorem getBlock_is_last_block_change (M : JSMath) (tr : list Input) (p : Vec3.t) :
  World.getBlock p (world (run M tr new_bot)) = fold_left (block_after p) tr 0%Z.
Proof.
  assert (H : ∀ b, World.getBlock p (world (run M tr b))
                   = fold_left (block_after p) tr (World.getBlock p (world b))).
  { induction tr as [|i tr IH]; intros b; [done|].
    unfold run in *; simpl. by rewrite IH, getBlock_step. }
  apply H.
Qed.

Lemma not_grounded (b : Bot) :
  blocks (world b) = ∅ → Physics._isOnGround b = false.
Proof.
  intros H. unfold Physics._isOnGround, World.getBlock. by rewrite H, lookup_empty.
Qed.

Lemma ungrounded_step (M : JSMath) (b : Bot) (i : Input) :
  is_block_change i = false →
  blocks (world b) = ∅ ∧ jumpCooldown (physics b) = 0%Z →
  blocks (world (step M b i)) = ∅ ∧ jumpCooldown (physics (step M b i)) = 0%Z.
Proof.
  intros Hi [Hb Hj]. split.
  - rewrite blocks_step. by destruct i.
  - destruct i; try done; try (step_cases; done || lia).
    simpl. unfold Physics.jump. by rewrite not_grounded.
Qed.

(** X6. Until the first [block_change] packet arrives the bot knows no
    block, so it is never on the ground: [_isOnGround] is false, [jump] does
    nothing, the jump cooldown stays at 0 and no position is walkable,
    whatever chunks, other packets, ticks and calls there were. *)
Theorem never_grounded_without_block_change (M : JSMath) (tr : list Input) :
  forallb (λ i, negb (is_block_change i)) tr = true →
  let b := run M tr new_bot in
  Physics._isOnGround b = false
  ∧ Physics.jump b = b
  ∧ jumpCooldown (physics b) = 0%Z
  ∧ ∀ p, World.isWalkable p (world b) = false.
Proof.
  intros Htr b.
  assert (H : blocks (world b) = ∅ ∧ jumpCooldown (physics b) = 0%Z).
  { subst b.
    assert (Hgen : ∀ b0, blocks (world b0) = ∅ ∧ jumpCooldown (physics b0) = 0%Z →
              blocks (world (run M tr b0)) = ∅
              ∧ jumpCooldown (physics (run M tr b0)) = 0%Z).
    { induction tr as [|i tr IH]; intros b0 Hb0; [done|].
      simpl in Htr. apply andb_true_iff in Htr as [Hi Htr].
      apply IH; [done|]. apply ungrounded_step; [by apply negb_true_iff|done]. }
    by apply Hgen. }
  destruct H as [Hb Hj].
  split; [by apply not_grounded|]. split.
  - unfold Physics.jump. by rewrite not_grounded.
  - split; [done|]. intros p. unfold World.isWalkable, World.getBlock.
    by rewrite Hb, !lookup_empty.
Qed.

Lemma never_grounded_without_block_change_witness :
  let b := run example_math
             [pkt_connect; pkt_map_chunk 0 0; pkt_position 0 (641 # 10) 0 0 0 true;
              tick_physics; call_jump] new_bot in
  Physics._isOnGround b = false
  ∧ Physics.jump b = b
  ∧ jumpCooldown (physics b) = 0%Z
  ∧ ∀ p, World.isWalkable p (world b) = false.
Proof.
  apply (never_grounded_without_block_change example_math
           [pkt_connect; pkt_map_chunk 0 0; pkt_position 0 (641 # 10) 0 0 0 true;
            tick_physics; call_jump]).
  reflexivity.
Defined.

(** ** Nearest entities *)

Lemma lt_iff (a b : Q) : lt a b = true ↔ (a < b)%Q.
Proof.
  unfold lt. rewrite negb_true_iff, <- not_true_iff_false, Qle_bool_iff.
  split; [apply Qnot_le_lt|apply Qlt_not_le].
Qed.

(** [<] holds of rationals only. *)
Lemma lt_fin (a b : Num.t) :
  lt a b = true → ∃ x y : Q, a = x ∧ b = y ∧ (x < y)%Q.
Proof.
  destruct a as [x|], b as [y|]; try done.
  intros H%lt_iff. by exists x, y.
Qed.

Lemma lt_irrefl (a : Num.t) : lt a a = false.
Proof.
  apply not_true_iff_false. intros (x & y & -> & [= ->] & H)%lt_fin.
  by apply Qlt_irrefl in H.
Qed.

Lemma lt_trans (a b c : Num.t) : lt a b = true → lt b c = true → lt a c = true.
Proof.
  intros (x & y & -> & -> & Hxy)%lt_fin (y' & z & [= <-] & -> & Hyz)%lt_fin.
  apply lt_iff. by eapply Qlt_trans.
Qed.

Lemma lt_asym (a b : Num.t) : lt a b = true → lt b a = false.
Proof.
  intros Hab. apply not_true_iff_false. intros Hba.
  pose proof (lt_trans a b a Hab Hba) as H. by rewrite lt_irrefl in H.
Qed.

(** The loop, started with [nearestEntity] and [nearestDistance]: it
    answers what it was started with when no entity of [refs] that passes
    the filter is nearer than [nearestDistance], and else such an entity
    than which none of them is nearer. *)
Lemma nearest_loop (M : JSMath) (b : Bot) (keep : Entity → bool)
    (refs : list nat) (ne : option nat) (nd : option Num.t) :
  let res := EntityTracker.nearest M (objects (bot_entities b)) (position b)
               keep refs ne nd in
  (res = ne ∧ nearest_within M b keep refs nd None)
  ∨ (∃ r, res = Some r ∧ nearest_within M b keep refs nd (Some r)).
Proof.
  revert ne nd. induction refs as [|r0 refs IH]; intros ne nd; simpl.
  { left. split; [done|]. intros r' e' Hr'. by apply elem_of_nil in Hr'. }
  destruct (objects (bot_entities b) !! r0) as [e0|] eqn:He0; cycle 1.
  { destruct (IH ne nd) as [[Hres Hnone]|(r & Hres & e & Hin & He & Hk & Hn & Hmin)].
    - left. split; [done|]. intros r' e' [->|Hr']%elem_of_cons He' Hk'; [congruence|].
      by apply (Hnone r' e').
    - right. exists r. split; [done|]. exists e.
      split; [by apply list_elem_of_further|]. repeat split; try done.
      intros r' e' [->|Hr']%elem_of_cons He' Hk'; [congruence|]. by apply (Hmin r' e'). }
  destruct (keep e0) eqn:Hk0; cycle 1.
  { destruct (IH ne nd) as [[Hres Hnone]|(r & Hres & e & Hin & He & Hk & Hn & Hmin)].
    - left. split; [done|]. intros r' e' [->|Hr']%elem_of_cons He' Hk'; [congruence|].
      by apply (Hnone r' e').
    - right. exists r. split; [done|]. exists e.
      split; [by apply list_elem_of_further|]. repeat split; try done.
      intros r' e' [->|Hr']%elem_of_cons He' Hk'; [congruence|]. by apply (Hmin r' e'). }
  fold (distance_of M b e0).
  destruct (EntityTracker.nearer (distance_of M b e0) nd) eqn:Hn0.
  - (* the entity becomes the nearest so far *)
    right.
    destruct (IH (Some r0) (Some (distance_of M b e0)))
      as [[Hres Hnone]|(r & Hres & e & Hin & He & Hk & Hn & Hmin)].
    + exists r0. split; [done|]. exists e0.
      split; [apply list_elem_of_here|]. repeat split; try done.
      intros r' e' [->|Hr']%elem_of_cons He' Hk'.
      * assert (e' = e0) as -> by congruence. apply lt_irrefl.
      * by apply (Hnone r' e').
    + exists r. split; [done|]. exists e.
      split; [by apply list_elem_of_further|]. simpl in Hn.
      repeat split; try done.
      * destruct nd as [n|]; simpl in *; [by eapply lt_trans|].
        by destruct (lt_fin _ _ Hn) as (x & y & -> & _).
      * intros r' e' [->|Hr']%elem_of_cons He' Hk'; [|by apply (Hmin r' e')].
        assert (e' = e0) as -> by congruence. by apply lt_asym.
  - (* the entity is not nearer *)
    destruct (IH ne nd) as [[Hres Hnone]|(r & Hres & e & Hin & He & Hk & Hn & Hmin)].
    + left. split; [done|]. intros r' e' [->|Hr']%elem_of_cons He' Hk'.
      * assert (e' = e0) as -> by congruence. done.
      * by apply (Hnone r' e').
    + right. exists r. split; [done|]. exists e.
      split; [by apply list_elem_of_further|]. repeat split; try done.
      intros r' e' [->|Hr']%elem_of_cons He' Hk'; [|by apply (Hmin r' e')].
      assert (e' = e0) as -> by congruence.
      apply not_true_iff_false. intros Hlt.
      destruct nd as [n|]; simpl in *.
      * by rewrite (lt_trans _ _ _ Hlt Hn) in Hn0.
      * destruct (lt_fin _ _ Hlt) as (x & y & Hx & _). by rewrite Hx in Hn0.
Qed.

(** X7. [findNearestEntity(types, maxDistance)] answers an entity of the
    entity map whose type is one of [types], nearer to the bot than
    [maxDistance], and such that no entity of the map with one of these
    types is nearer; it answers [null] exactly when no entity of the map
    with one of these types is nearer than [maxDistance].  Entities without
    a type, the players, are never answered. *)
Theorem findNearestEntity_is_nearest (M : JSMath) (types : list string)
    (maxDistance : option Q) (b : Bot) :
  is_nearest M b (EntityTracker.includes types)
    (JSMap.values (entities (bot_entities b))) maxDistance
    (EntityTracker.findNearestEntity M types maxDistance b).
Proof.
  unfold EntityTracker.findNearestEntity.
  destruct (nearest_loop M b (EntityTracker.includes types)
              (JSMap.values (entities (bot_entities b))) None (Num.fin <$> maxDistance))
    as [[-> H]|(r & -> & H)]; done.
Qed.

(** X8. [findNearestPlayer(maxDistance)] answers a player of the player map
    nearer to the bot than [maxDistance] and such that no player of the map
    is nearer; it answers [null] exactly when no player of the map is nearer
    than [maxDistance]. *)
Theorem findNearestPlayer_is_nearest (M : JSMath) (maxDistance : option Q)
    (b : Bot) :
  is_nearest M b (λ _, true) (JSMap.values (players (bot_entities b)))
    maxDistance (EntityTracker.findNearestPlayer M maxDistance b).
Proof.
  unfold EntityTracker.findNearestPlayer.
  destruct (nearest_loop M b (λ _, true)
              (JSMap.values (players (bot_entities b))) None (Num.fin <$> maxDistance))
    as [[-> H]|(r & -> & H)]; done.
Qed.

(** ** Players and entities share an object *)

Lemma JSMap_get_set {V : Type} (k : Z) (v : V) (m : JSMap.t V) :
  JSMap.get k (JSMap.set k v m) = Some v.
Proof.
  induction m as [|[k' v'] m IH]; simpl; [by rewrite Z.eqb_refl|].
  destruct (Z.eqb_spec k k') as [->|Hne]; simpl.
  - by rewrite Z.eqb_refl.
  - by destruct (Z.eqb_spec k k').
Qed.

(** X9. A spawned player is one object in both maps: after a [spawn_player]
    packet for [id], the entity map and the player map answer the same
    reference for [id], and an [entity_move] and an [entity_metadata] packet
    for [id] that follow are seen through either map: the object's metadata
    is the packet's, and its position is [NaN] in every coordinate, whatever
    the spawn position and the move were (the handler hands [add] the three
    numbers of the move, and [add] takes a vector). *)
Theorem player_shared_by_both_maps (M : JSMath) (b : Bot) (id : Z)
    (uuid name : string) (x y z yaw' pitch' dX dY dZ : Q) (metadata : list Z) :
  let b' := run M [pkt_spawn_player id uuid name x y z yaw' pitch';
                   pkt_entity_move id dX dY dZ;
                   pkt_entity_metadata id metadata] b in
  ∃ r e,
    JSMap.get id (entities (bot_entities b')) = Some r
    ∧ JSMap.get id (players (bot_entities b')) = Some r
    ∧ objects (bot_entities b') !! r = Some e
    ∧ e_id e = id ∧ e_name e = Some name ∧ e_uuid e = Some uuid
    ∧ e_position e = vec3 Num.NaN Num.NaN Num.NaN
    ∧ e_metadata e = Some metadata.
Proof.
  intros b'. exists (length (objects (bot_entities b))).
  subst b'. unfold run. simpl.
  unfold MinecraftBot.on_entity_metadata, EntityTracker.updateMetadata,
    EntityTracker.on_entity_move. simpl.
  rewrite !JSMap_get_set.
  rewrite lookup_app_r, Nat.sub_diag by lia. simpl.
  rewrite !JSMap_get_set.
  rewrite list_lookup_insert_eq by (rewrite length_app; simpl; lia). simpl.
  eexists. split; [apply JSMap_get_set|]. split; [apply JSMap_get_set|]. split.
  - apply list_lookup_insert_eq. rewrite length_insert, length_app. simpl. lia.
  - done.
Qed.

(** ** Who writes what *)

(** The loop that places ingredients writes window clicks only. *)
Lemma place_ingredients_written (windowId i : Z) (ings : list (string * Z)) (b : Bot) :
  ∃ cmds, state_of (Crafting.place_ingredients windowId i ings b)
          = set_written (written b ++ cmds) b
          ∧ Forall (λ c, may_write (call_craft "" 0) c = true) cmds.
Proof.
  revert i b. induction ings as [|[item n] ings IH]; intros i b; simpl.
  - exists []. rewrite app_nil_r. split; [symmetry; apply set_written_id|constructor].
  - destruct (Inventory.findItem _ _) as [[found slot]|]; simpl.
    + destruct (IH (i + 1)%Z
        (write (w_window_click windowId (Z.of_nat slot) 0 i 0 (Some found)) b))
        as (cmds & -> & Hall).
      eexists (_ :: cmds). unfold write; simpl.
      rewrite <- app_assoc. split; [done|]. by constructor.
    + exists []. rewrite app_nil_r. split; [symmetry; apply set_written_id|constructor].
Qed.

(** The body of [craft] writes window clicks, and a block place when it
    opens the crafting table. *)
Lemma craft_body_written (M : JSMath) (p : nat) (itemName : string) (count : Z)
    (b : Bot) :
  ∃ cmds wo, state_of (Crafting.craft_body M p itemName count b)
             = set_window_open_listeners wo (set_written (written b ++ cmds) b)
             ∧ Forall (λ c, may_write (call_craft itemName count) c = true) cmds.
Proof.
  assert (Hid : ∃ cmds wo,
            b = set_window_open_listeners wo (set_written (written b ++ cmds) b)
            ∧ Forall (λ c, may_write (call_craft itemName count) c = true) cmds).
  { exists [], (window_open_listeners b). rewrite app_nil_r.
    split; [by destruct b|constructor]. }
  unfold Crafting.craft_body.
  destruct (recipes (crafting b) !! itemName) as [recipe|]; simpl; [|done].
  destruct (_ && _); simpl; [done|].
  destruct (Crafting.missing_ingredient _ _ _); simpl; [done|].
  destruct (requiresCraftingTable recipe).
  - unfold Crafting._openCraftingTable.
    destruct (craftingTablePos (crafting b)); simpl; [|done].
    destruct (lt _ _); simpl; [done|].
    eexists [_], _. split; [reflexivity|]. by repeat constructor.
  - destruct (place_ingredients_written 0 0 (ingredients recipe) b) as (cmds & Hc & Hall).
    destruct (Crafting.place_ingredients 0 0 (ingredients recipe) b) as [b2|m b2|b2];
      simpl in Hc; subst b2; simpl.
    + exists (cmds ++ [w_window_click 0 0 0 (Z.of_nat (length (ingredients recipe))) 0 None]),
        (window_open_listeners b).
      unfold write; simpl. rewrite <- app_assoc. split; [by destruct b|].
      apply Forall_app. split; [done|]. by repeat constructor.
    + exists cmds, (window_open_listeners b). split; [by destruct b|done].
    + exists cmds, (window_open_listeners b). split; [by destruct b|done].
Qed.

Lemma craft_written (M : JSMath) (itemName : string) (count : Z) (b : Bot) :
  ∃ cmds, written (snd (Crafting.craft M itemName count b)) = written b ++ cmds
          ∧ Forall (λ c, may_write (call_craft itemName count) c = true) cmds.
Proof.
  unfold Crafting.craft, new_promise.
  destruct (craft_body_written M (length (promises b)) itemName count
              (set_promises (promises b ++ [Pending]) b)) as (cmds & wo & Hbody & Hall).
  exists cmds. split; [|done].
  destruct (Crafting.craft_body _ _ _ _ _) as [b2|m b2|b2];
    simpl in Hbody; subst b2; simpl; try done.
  - match goal with |- context [settle ?p ?s ?b0] =>
      destruct (settle_frame p s b0) as [ps ->] end. done.
  - match goal with |- context [settle ?p ?s ?b0] =>
      destruct (settle_frame p s b0) as [ps ->] end. done.
Qed.

(** What an input makes the bot write: commands are only ever appended,
    and each input appends commands of its own kind only. *)
Lemma written_step (M : JSMath) (b : Bot) (i : Input) :
  ∃ cmds, written (step M b i) = written b ++ cmds
          ∧ Forall (λ c, may_write i c = true) cmds.
Proof.
  destruct i;
    try (simpl; apply craft_written);
    step_cases; rewrite <- ?app_assoc;
    first [ exists []; split; [by rewrite app_nil_r|constructor]
          | eexists; split; [reflexivity|];
            repeat constructor; simpl;
            rewrite ?String.eqb_refl, ?Z.eqb_refl; reflexivity ].
Qed.

Lemma written_run (M : JSMath) (tr : list Input) (b : Bot) (P : Command → bool) :
  (∀ i c, i ∈ tr → may_write i c = true → P c = true) →
  ∃ cmds, written (run M tr b) = written b ++ cmds
          ∧ Forall (λ c, P c = true) cmds.
Proof.
  revert b. induction tr as [|i tr IH]; intros b HP.
  - exists []. split; [by rewrite app_nil_r|constructor].
  - destruct (written_step M b i) as (cmds1 & H1 & Hall1).
    destruct (IH (step M b i)) as (cmds2 & H2 & Hall2).
    { intros i' c Hi'. apply HP. by apply list_elem_of_further. }
    exists (cmds1 ++ cmds2). unfold run in *; simpl.
    rewrite H2, H1, <- app_assoc. split; [done|].
    apply Forall_app. split; [|done].
    eapply Forall_impl; [exact Hall1|]. intros c. apply HP, list_elem_of_here.
Qed.

(** X10. The packet handlers never write to the client: whatever events and
    packets arrive (connect, disconnect, error, position, chat, health,
    block changes, inventory, chunks, entity spawns, moves, metadata and
    destroys), the commands written are the ones written before; commands
    only go out on ticks, timers and method calls. *)
Theorem packets_write_nothing (M : JSMath) (tr : list Input) (b : Bot) :
  forallb is_packet tr = true → written (run M tr b) = written b.
Proof.
  intros Htr.
  destruct (written_run M tr b (λ _, false)) as (cmds & -> & Hall).
  - intros i c Hi Hw. rewrite forallb_forall in Htr.
    apply list_elem_of_In, Htr in Hi. by destruct i, c.
  - destruct cmds as [|c cmds]; [by rewrite app_nil_r|]. by inversion Hall.
Qed.

Lemma packets_write_nothing_witness :
  written (run example_math
             [pkt_connect; pkt_health 0 0 0; pkt_block_change 1 2 3 0;
              pkt_spawn_entity 7 "zombie" 1 0 0 0 0 0 0 0; pkt_entity_destroy [7%Z];
              pkt_disconnect "bye"] new_bot)
  = written new_bot.
Proof.
  apply (packets_write_nothing example_math
           [pkt_connect; pkt_health 0 0 0; pkt_block_change 1 2 3 0;
            pkt_spawn_entity 7 "zombie" 1 0 0 0 0 0 0 0; pkt_entity_destroy [7%Z];
            pkt_disconnect "bye"] new_bot).
  reflexivity.
Defined.

(** ** Ticks *)

(** X11. After a [disconnect] event the two intervals keep firing but do
    nothing: however many physics and combat ticks follow, the bot stays
    exactly as the event left it; no position is reported and nothing is
    attacked until a [connect] event arrives. *)
Theorem ticks_idle_after_disconnect (M : JSMath) (tr : list Input) (b : Bot)
    (reason : string) :
  forallb is_tick tr = true →
  run M (pkt_disconnect reason :: tr) b = step M b (pkt_disconnect reason).
Proof.
  intros Htr. unfold run. simpl.
  assert (H : ∀ b0, connected b0 = false → fold_left (step M) tr b0 = b0).
  { induction tr as [|i tr IH]; intros b0 Hb0; [done|].
    simpl in Htr. apply andb_true_iff in Htr as [Hi Htr]. simpl.
    assert (step M b0 i = b0) as ->; [|by apply IH].
    destruct i; try done; simpl.
    - unfold Physics._update. by rewrite Hb0.
    - unfold Combat._update. by rewrite Hb0. }
  by apply H.
Qed.

Lemma ticks_idle_after_disconnect_witness :
  run example_math
    (pkt_disconnect "kicked" :: [tick_physics; tick_combat; tick_physics])
    after_strike
  = step example_math after_strike (pkt_disconnect "kicked").
Proof.
  apply (ticks_idle_after_disconnect example_math
           [tick_physics; tick_combat; tick_physics] after_strike "kicked").
  reflexivity.
Defined.




(** Comparisons on integers that the case analysis leaves as booleans. *)
Ltac bool_to_Z :=
  repeat match goal with
    | H : _ && _ = true |- _ => apply andb_true_iff in H as [? ?]
    | H : Z.eqb _ _ = true |- _ => apply Z.eqb_eq in H
    | H : Z.eqb _ _ = false |- _ => apply Z.eqb_neq in H
    | H : Z.ltb _ _ = true |- _ => apply Z.ltb_lt in H
    | H : Z.ltb _ _ = false |- _ => apply Z.ltb_ge in H
    end.

(** While the jump cooldown is positive only a physics tick changes it,
    and by one at most. *)
Lemma jumpCooldown_running (M : JSMath) (b : Bot) (i : Input) :
  (0 < jumpCooldown (physics b) ≤ 10)%Z →
  (jumpCooldown (physics b) - (if is_physics_tick i then 1 else 0)
   ≤ jumpCooldown (physics (step M b i)) ≤ jumpCooldown (physics b))%Z.
Proof.
  intros Hc. destruct i; step_cases; bool_to_Z; lia.
Qed.

Lemma length_filter_cons {A : Type} (P : A → bool) (x : A) (l : list A) :
  length (filter P (x :: l))
  = ((if P x then 1 else 0) + length (filter P l))%nat.
Proof.
  rewrite filter_cons. by destruct (P x).
Qed.

Lemma jumpCooldown_run (M : JSMath) (tr : list Input) (b : Bot) :
  (0 < jumpCooldown (physics b) ≤ 10)%Z →
  (Z.of_nat (length (filter is_physics_tick tr)) < jumpCooldown (physics b))%Z →
  (jumpCooldown (physics b) - Z.of_nat (length (filter is_physics_tick tr))
   ≤ jumpCooldown (physics (run M tr b)) ≤ jumpCooldown (physics b))%Z.
Proof.
  revert b. induction tr as [|i tr IH]; intros b Hc Hk; [simpl; lia|].
  rewrite length_filter_cons in Hk |- *.
  pose proof (jumpCooldown_running M b i Hc) as Hstep.
  unfold run in *; simpl fold_left.
  specialize (IH (step M b i)).
  destruct (is_physics_tick i); lia.
Qed.

(** X13. The jump cooldown limits the rate of jumps: once a jump has set it
    to 10, a call of [jump] does nothing before the tenth physics tick after
    it, on the ground or not and whatever else happens in between: the
    cooldown is still positive, at least 10 less the number of physics ticks
    so far (a tick while the bot is disconnected does not count down). *)
Theorem jump_rate_limited (M : JSMath) (tr : list Input) (b : Bot) :
  jumpCooldown (physics b) = 10%Z →
  (length (filter is_physics_tick tr) < 10)%nat →
  (10 - Z.of_nat (length (filter is_physics_tick tr))
   ≤ jumpCooldown (physics (run M tr b)))%Z
  ∧ Physics.jump (run M tr b) = run M tr b.
Proof.
  intros Hc Hk.
  assert (Hrun : (10 - Z.of_nat (length (filter is_physics_tick tr))
                  ≤ jumpCooldown (physics (run M tr b)))%Z).
  { pose proof (jumpCooldown_run M tr b). lia. }
  split; [done|]. unfold Physics.jump.
  replace (Z.eqb (jumpCooldown (physics (run M tr b))) 0) with false
    by (symmetry; apply Z.eqb_neq; lia).
  by rewrite andb_false_r.
Qed.

Lemma jump_rate_limited_witness :
  (10 - Z.of_nat (length (filter is_physics_tick
                            (call_jump :: physics_ticks 9 ++ [call_jump])))
   ≤ jumpCooldown (physics (run example_math
                              (call_jump :: physics_ticks 9 ++ [call_jump])
                              after_jump)))%Z
  ∧ Physics.jump (run example_math
                    (call_jump :: physics_ticks 9 ++ [call_jump]) after_jump)
    = run example_math (call_jump :: physics_ticks 9 ++ [call_jump]) after_jump.
Proof.
  apply (jump_rate_limited example_math
           (call_jump :: physics_ticks 9 ++ [call_jump]) after_jump).
  - reflexivity.
  - vm_compute. lia.
Defined.

(** ** The combat loop *)

(** X14. When the entity the bot is attacking is destroyed, the next combat
    tick of the connected bot drops the target and does nothing else: it
    writes no command and leaves the attack cooldown alone. *)
Theorem destroyed_target_dropped (M : JSMath) (b : Bot) (t : nat) (e : Entity)
    (ids : list Z) :
  connected b = true →
  target (combat b) = Some t →
  objects (bot_entities b) !! t = Some e →
  e_id e ∈ ids →
  let b' := run M [pkt_entity_destroy ids; tick_combat] b in
  target (combat b') = None
  ∧ written b' = written b
  ∧ attackCooldown (combat b') = attackCooldown (combat b).
Proof.
  intros Hc Ht He Hin b'. subst b'. unfold run. simpl.
  unfold Combat._update. simpl. rewrite Hc, Ht. simpl.
  rewrite destroy_objects, He.
  rewrite JSMap_get_None; [done|].
  intros r. by apply unknown_id_destroyed.
Qed.

Lemma destroyed_target_dropped_witness :
  let b' := run example_math [pkt_entity_destroy [7%Z]; tick_combat] after_strike in
  target (combat b') = None
  ∧ written b' = written after_strike
  ∧ attackCooldown (combat b') = attackCooldown (combat after_strike).
Proof.
  apply (destroyed_target_dropped example_math after_strike 0
           {| e_id := 7; e_type := Some "zombie"; e_uuid := None; e_name := None;
              e_position := vec3 1 0 0; e_velocity := Some (vec3 0 0 0);
              e_yaw := 0; e_pitch := 0; e_metadata := None |} [7%Z]).
  - reflexivity.
  - reflexivity.
  - reflexivity.
  - apply list_elem_of_here.
Defined.

Lemma strikes_app (b : Bot) (cmds : list Command) (w : list Command) :
  written b = w ++ cmds → Forall (λ c, is_strike c = false) cmds →
  strikes b = filter is_strike w.
Proof.
  intros Hw Hall. unfold strikes. rewrite Hw, filter_app.
  assert (filter is_strike cmds = []) as ->; [|by rewrite app_nil_r].
  clear Hw. induction Hall as [|c cmds' Hc _ IH]; [done|].
  by rewrite filter_cons, IH, Hc.
Qed.

(** An input that is neither a call of an attack method nor a combat tick
    writes no attack. *)
Lemma no_strike_step (M : JSMath) (b : Bot) (i : Input) :
  is_attack_call i = false → is_combat_tick i = false →
  strikes (step M b i) = strikes b.
Proof.
  intros Ha Ht. destruct (written_step M b i) as (cmds & Hw & Hall).
  apply (strikes_app _ cmds); [done|].
  eapply Forall_impl; [exact Hall|]. intros c Hc. by destruct i, c.
Qed.

(** A combat tick does not attack without a target, nor while the attack
    cooldown is running. *)
Lemma combat_tick_no_strike (M : JSMath) (b : Bot) :
  target (combat b) = None ∨ attackCooldown (combat b) ≠ 0%Z →
  strikes (Combat._update M b) = strikes b.
Proof.
  intros H. unfold Combat._update.
  destruct (connected b); simpl; [|done].
  destruct (target (combat b)) as [t|]; [|done].
  destruct H as [?|Hc]; [done|].
  repeat case_match; try done.
  - unfold strikes; simpl. rewrite !filter_app. simpl. by rewrite app_nil_r.
  - bool_to_Z. done.
Qed.

(** The target changes only by the attack methods, by [stop] and by the
    combat tick that drops it. *)
Lemma target_step (M : JSMath) (b : Bot) (i : Input) :
  is_attack_call i = false →
  target (combat (step M b i)) = target (combat b)
  ∨ target (combat (step M b i)) = None.
Proof. intros Ha. destruct i; try done; step_cases; auto. Qed.

(** X15. The bot attacks only when told to: while it has no target (at the
    start, after [stop], after its target was destroyed) and none of
    [attack], [attackEntity] and [attackNearestEntity] is called, no attack
    is written and the bot stays without a target, whatever packets arrive
    and however many ticks go by. *)
Theorem no_target_no_strike (M : JSMath) (tr : list Input) (b : Bot) :
  target (combat b) = None →
  forallb (λ i, negb (is_attack_call i)) tr = true →
  target (combat (run M tr b)) = None ∧ strikes (run M tr b) = strikes b.
Proof.
  revert b. induction tr as [|i tr IH]; intros b Ht Htr; [done|].
  simpl in Htr. apply andb_true_iff in Htr as [Hi%negb_true_iff Htr].
  assert (Ht' : target (combat (step M b i)) = None).
  { destruct (target_step M b i Hi) as [->|?]; done. }
  destruct (IH (step M b i) Ht' Htr) as [IHt IHs].
  unfold run in *; simpl. split; [done|]. rewrite IHs.
  destruct (is_combat_tick i) eqn:Hc.
  - destruct i; try done. simpl. apply combat_tick_no_strike. by left.
  - by apply no_strike_step.
Qed.

Lemma no_target_no_strike_witness :
  target (combat (run example_math
                    [pkt_spawn_entity 9 "zombie" 1 0 0 0 0 0 0 0; tick_physics;
                     tick_combat; tick_combat] after_stop)) = None
  ∧ strikes (run example_math
               [pkt_spawn_entity 9 "zombie" 1 0 0 0 0 0 0 0; tick_physics;
                tick_combat; tick_combat] after_stop)
    = strikes after_stop.
Proof.
  apply (no_target_no_strike example_math
           [pkt_spawn_entity 9 "zombie" 1 0 0 0 0 0 0 0; tick_physics;
            tick_combat; tick_combat] after_stop); reflexivity.
Defined.

(** The attack cooldown, when it is not negative, goes down by one at
    most, and only on a combat tick. *)
Lemma attackCooldown_running (M : JSMath) (b : Bot) (i : Input) :
  (0 ≤ attackCooldown (combat b))%Z →
  (attackCooldown (combat b) - (if is_combat_tick i then 1 else 0)
   ≤ attackCooldown (combat (step M b i)))%Z.
Proof.
  intros Hc. destruct i; step_cases; bool_to_Z; lia.
Qed.

(** X16. The attack cooldown limits the rate of the combat loop: while the
    cooldown is [c], the loop writes no attack during the next [c] combat
    ticks, in reach of its target or not; the only attacks written are those
    of calls of [attack], [attackEntity] and [attackNearestEntity].  After a
    strike, which sets the cooldown to 10, the loop strikes again on the
    eleventh tick at the earliest. *)
Theorem strike_rate_limited (M : JSMath) (tr : list Input) (b : Bot) :
  (Z.of_nat (length (filter is_combat_tick tr)) ≤ attackCooldown (combat b))%Z →
  forallb (λ i, negb (is_attack_call i)) tr = true →
  strikes (run M tr b) = strikes b.
Proof.
  revert b. induction tr as [|i tr IH]; intros b Hk Htr; [done|].
  simpl in Htr. apply andb_true_iff in Htr as [Hi%negb_true_iff Htr].
  rewrite length_filter_cons in Hk.
  assert (Hpos : is_combat_tick i = true → attackCooldown (combat b) ≠ 0%Z).
  { intros Ht. rewrite Ht in Hk. lia. }
  assert (Hstep : (attackCooldown (combat b) - (if is_combat_tick i then 1 else 0)
                   ≤ attackCooldown (combat (step M b i)))%Z)
    by (apply attackCooldown_running; lia).
  unfold run in *; simpl. rewrite IH; [..|done].
  - destruct (is_combat_tick i) eqn:Hc.
    + destruct i; try done. simpl. apply combat_tick_no_strike. right. by apply Hpos.
    + by apply no_strike_step.
  - destruct (is_combat_tick i); lia.
Qed.

Lemma strike_rate_limited_witness :
  strikes (run example_math
             (concat (replicate 10 [tick_physics; tick_combat])) after_strike)
  = strikes after_strike.
Proof.
  apply (strike_rate_limited example_math
           (concat (replicate 10 [tick_physics; tick_combat])) after_strike).
  - vm_compute. discriminate.
  - reflexivity.
Defined.

(** ** Digging, continued *)

(** X17. A listener of [blockUpdate] is registered exactly as long as its
    dig is pending: in every state the bot can reach, each registered
    listener has a promise of its own and that promise is pending; the block
    change that fulfils a dig removes its listener, so no listener is left
    behind. *)
Theorem listeners_are_pending (M : JSMath) (tr : list Input) :
  let b := run M tr new_bot in
  NoDup (dl_promise <$> blockUpdate_listeners b)
  ∧ Forall (λ l, promises b !! dl_promise l = Some Pending)
      (blockUpdate_listeners b).
Proof.
  intros b. split; [apply (dig_wf_run M tr new_bot dig_wf_new)|].
  subst b.
  assert (H : ∀ b0, dig_wf b0 →
            Forall (λ l, promises b0 !! dl_promise l = Some Pending)
              (blockUpdate_listeners b0) →
            Forall (λ l, promises (run M tr b0) !! dl_promise l = Some Pending)
              (blockUpdate_listeners (run M tr b0))).
  { induction tr as [|i tr IH]; intros b0 Hwf Hall; [done|].
    apply IH; [by apply dig_wf_step|].
    rewrite Forall_forall in Hall |- *. intros l Hl.
    pose proof (dig_step M b0 i) as Hstep.
    destruct i; cbv beta iota in Hstep;
      try (destruct Hstep as [Hls Hps]; rewrite Hps; rewrite Hls in Hl; by apply Hall).
    - destruct Hstep as (Hls & _ & Hps). rewrite Hls in Hl.
      apply list_elem_of_filter in Hl as [Hnot Hl].
      rewrite Hps, decide_False by done. by apply Hall.
    - destruct Hstep as [Hls Hps]. rewrite Hls in Hl. rewrite Hps.
      apply elem_of_app in Hl as [Hl|Hl%list_elem_of_singleton].
      + apply lookup_app_l_Some. by apply Hall.
      + subst l. simpl. by rewrite lookup_app_r, Nat.sub_diag by lia.
    - destruct Hstep as (Hls & s & Hps). rewrite Hls in Hl. rewrite Hps.
      apply lookup_app_l_Some. by apply Hall. }
  apply H; [apply dig_wf_new|constructor].
Qed.

(** X18. A dig issued in any state the bot can reach is fulfilled by the
    first block change at exactly its block, of whatever block type (the
    listener compares the position only), and by nothing else: after any
    inputs its promise is fulfilled if a [block_change] packet for its block
    was among them and pending if none was. *)
Theorem dig_fulfilled_by_any_block_change (M : JSMath) (tr0 tr : list Input)
    (x y z : Q) :
  let b0 := run M tr0 new_bot in
  let p := fst (MinecraftBot.mineBlock x y z b0) in
  promises (run M tr (snd (MinecraftBot.mineBlock x y z b0))) !! p
  = Some (if existsb (block_change_at x y z) tr then Fulfilled else Pending).
Proof.
  intros b0 p.
  assert (Hwf0 : dig_wf b0) by apply dig_wf_run, dig_wf_new.
  destruct (mineBlock_active M x y z b0 Hwf0) as (Hp & _ & Hwf & Hact).
  exact (dig_resolution M tr _ _ Hwf Hact).
Qed.

Lemma locations_app (f : Command → option Vec3.t) (l1 l2 : list Command) :
  locations f (l1 ++ l2) = locations f l1 ++ locations f l2.
Proof.
  induction l1 as [|c l1 IH]; simpl; [done|]. rewrite IH. by destruct (f c).
Qed.

Lemma locations_none (f : Command → option Vec3.t) (l : list Command) :
  Forall (λ c, f c = None) l → locations f l = [].
Proof. induction 1 as [|c l Hc _ IH]; simpl; [done|]. by rewrite Hc. Qed.

(** No input but [mineBlock] and its timer touches the pending timeouts. *)
Lemma timeouts_step (M : JSMath) (b : Bot) (i : Input) :
  match i with
  | call_mineBlock x y z =>
      timeouts (step M b i) = timeouts b ++ [(1000%Z, vec3 x y z)]
  | timer_dig => timeouts (step M b i) = tail (timeouts b)
  | _ => timeouts (step M b i) = timeouts b
  end.
Proof. destruct i; step_cases; reflexivity. Qed.

(** X19. Each [mineBlock] is followed by one finish-dig command, 1000 ms
    timers firing in the order they were set: in every state the bot can
    reach, the locations of the finish-dig commands written, followed by the
    locations of the timeouts still pending, are the locations of the
    start-dig commands written, in order.  A block change that fulfils the
    dig does not cancel its timeout, so the finish-dig is still sent. *)
Theorem finish_dig_follows_start_dig (M : JSMath) (tr : list Input) :
  let b := run M tr new_bot in
  locations finish_location (written b) ++ (snd <$> timeouts b)
  = locations start_location (written b).
Proof.
  intros b. subst b.
  assert (H : ∀ b0,
            locations finish_location (written b0) ++ (snd <$> timeouts b0)
            = locations start_location (written b0) →
            locations finish_location (written (run M tr b0))
              ++ (snd <$> timeouts (run M tr b0))
            = locations start_location (written (run M tr b0))).
  { induction tr as [|i tr IH]; intros b0 Hb0; [done|].
    apply IH.
    destruct (written_step M b0 i) as (cmds & Hw & Hall).
    pose proof (timeouts_step M b0 i) as Ht.
    destruct i; cbv beta iota in Ht;
      try (rewrite Hw, Ht, !locations_app,
             (locations_none finish_location cmds),
             (locations_none start_location cmds), !app_nil_r;
           [done|eapply Forall_impl; [exact Hall|]; by intros []..]).
    - (* the timer fires *)
      clear Hw Hall Ht. simpl. unfold MinecraftBot.timeout_fires.
      destruct (timeouts b0) as [|[d loc] rest] eqn:Hts; [by rewrite Hts|].
      simpl. rewrite !locations_app. simpl.
      by rewrite <- Hb0, app_nil_r, fmap_cons, <- app_assoc.
    - (* mineBlock *)
      simpl in Hw. apply app_inv_head in Hw. subst cmds.
      rewrite Ht. simpl. rewrite !locations_app, fmap_app. simpl.
      by rewrite app_nil_r, app_assoc, Hb0. }
  by apply H.
Qed.

(** ** Crafting without a table *)

(** When the check of the ingredients passes, the loop that places them
    finds each of them again and clicks its slot, ingredient [k] of the list
    with action [i + k]. *)
Lemma place_ingredients_clicks (windowId i count : Z) (ings : list (string * Z))
    (b : Bot) :
  Crafting.missing_ingredient count (inventory b) ings = None →
  ∃ clicks,
    Crafting.place_ingredients windowId i ings b
    = Return (set_written (written b ++ clicks) b)
    ∧ length clicks = length ings
    ∧ ∀ (k : nat) item n, ings !! k = Some (item, n) →
        ∃ found slot,
          Inventory.findItem (ByName item) (inventory b) = Some (found, slot)
          ∧ (n * count ≤ item_count found)%Z
          ∧ clicks !! k
            = Some (w_window_click windowId (Z.of_nat slot) 0 (i + Z.of_nat k) 0
                      (Some found)).
Proof.
  revert i b. induction ings as [|[item n] ings IH]; intros i b Hcheck.
  - exists []. simpl. rewrite app_nil_r, set_written_id. by split.
  - simpl in Hcheck. simpl.
    destruct (Inventory.findItem (ByName item) (inventory b))
      as [[found slot]|] eqn:Hfind; [|done].
    destruct (Z.ltb (item_count found) (n * count)) eqn:Hlt; [done|].
    apply Z.ltb_ge in Hlt.
    destruct (IH (i + 1)%Z
                (write (w_window_click windowId (Z.of_nat slot) 0 i 0 (Some found)) b)
                Hcheck) as (clicks & -> & Hlen & Hclicks).
    exists (w_window_click windowId (Z.of_nat slot) 0 i 0 (Some found) :: clicks).
    split; [|split].
    + unfold write; simpl. by rewrite <- app_assoc.
    + simpl. by rewrite Hlen.
    + intros [|k] item' n' Hk; simpl in Hk.
      * injection Hk as <- <-. exists found, slot.
        split; [done|]. split; [done|]. simpl. by rewrite Z.add_0_r.
      * destruct (Hclicks k item' n' Hk) as (found' & slot' & Hf & Hn & Hc).
        exists found', slot'. split; [exact Hf|]. split; [done|].
        change ((w_window_click windowId (Z.of_nat slot) 0 i 0 (Some found) :: clicks)
                  !! S k) with (clicks !! k).
        rewrite Hc. do 2 f_equal. lia.
Qed.

(** X20. [craft] of a recipe that needs no crafting table, with every
    ingredient in the inventory in sufficient number, completes within the
    call: the promise it returns is fulfilled, and it has written one window
    click per ingredient, in the order of the recipe, each on window 0 at the
    slot where [findItem] finds the ingredient and with the ingredient's index
    as action, followed by one click on the result slot 0.  Nothing else
    changes; the inventory in particular is left to the server's packets. *)
Theorem craft_without_table_clicks (M : JSMath) (itemName : string) (count : Z)
    (b : Bot) (recipe : Recipe) :
  recipes (crafting b) !! itemName = Some recipe →
  requiresCraftingTable recipe = false →
  Crafting.missing_ingredient count (inventory b) (ingredients recipe) = None →
  ∃ clicks,
    Crafting.craft M itemName count b
    = (length (promises b),
       set_promises (promises b ++ [Fulfilled])
         (set_written
            (written b ++ clicks
               ++ [w_window_click 0 0 0 (Z.of_nat (length (ingredients recipe))) 0 None])
            b))
    ∧ length clicks = length (ingredients recipe)
    ∧ ∀ (k : nat) item n, ingredients recipe !! k = Some (item, n) →
        ∃ found slot,
          Inventory.findItem (ByName item) (inventory b) = Some (found, slot)
          ∧ (n * count ≤ item_count found)%Z
          ∧ clicks !! k
            = Some (w_window_click 0 (Z.of_nat slot) 0 (Z.of_nat k) 0 (Some found)).
Proof.
  intros Hrecipe Htable Hcheck.
  destruct (place_ingredients_clicks 0 0 count (ingredients recipe)
              (snd (new_promise b)) Hcheck) as (clicks & Hplace & Hlen & Hclicks).
  exists clicks. split; [|split; [exact Hlen|exact Hclicks]].
  unfold Crafting.craft.
  assert (Hnew : new_promise b = (length (promises b), snd (new_promise b))) by done.
  rewrite Hnew. unfold Crafting.craft_body.
  assert (Hc : crafting (snd (new_promise b)) = crafting b) by done.
  assert (Hi : inventory (snd (new_promise b)) = inventory b) by done.
  rewrite Hc, Hi, Hrecipe, Htable. simpl andb. cbv iota.
  rewrite Hcheck, Hplace. f_equal.
  unfold settle, write, new_promise; simpl.
  rewrite lookup_app_r, Nat.sub_diag by lia; simpl.
  rewrite insert_app_r_alt, Nat.sub_diag by lia. simpl.
  by rewrite <- app_assoc.
Qed.

Lemma craft_without_table_clicks_witness :
  ∃ clicks,
    Crafting.craft example_math "stick" 2 with_planks
    = (length (promises with_planks),
       set_promises (promises with_planks ++ [Fulfilled])
         (set_written
            (written with_planks ++ clicks
               ++ [w_window_click 0 0 0
                     (Z.of_nat (length (ingredients
                        {| ingredients := [("planks", 2%Z)]; result := ("stick", 4%Z);
                           requiresCraftingTable := false |}))) 0 None])
            with_planks))
    ∧ length clicks
      = length (ingredients
          {| ingredients := [("planks", 2%Z)]; result := ("stick", 4%Z);
             requiresCraftingTable := false |})
    ∧ ∀ (k : nat) item n,
        ingredients
          {| ingredients := [("planks", 2%Z)]; result := ("stick", 4%Z);
             requiresCraftingTable := false |} !! k = Some (item, n) →
        ∃ found slot,
          Inventory.findItem (ByName item) (inventory with_planks) = Some (found, slot)
          ∧ (n * 2 ≤ item_count found)%Z
          ∧ clicks !! k
            = Some (w_window_click 0 (Z.of_nat slot) 0 (Z.of_nat k) 0 (Some found)).
Proof.
  apply (craft_without_table_clicks example_math "stick" 2 with_planks
           {| ingredients := [("planks", 2%Z)]; result := ("stick", 4%Z);
              requiresCraftingTable := false |}); reflexivity.
Defined.

(** X21. In every state the bot can reach the only recipe is the one for
    sticks that the constructor loads: [craft] of any other item fails within
    the call, its promise rejected with [Unknown recipe] and the item's name,
    and nothing is written to the client. *)
Theorem craft_unknown_recipe_rejected (M : JSMath) (tr : list Input)
    (itemName : string) (count : Z) :
  itemName ≠ "stick" →
  let b := run M tr new_bot in
  Crafting.craft M itemName count b
  = (length (promises b),
     set_promises (promises b ++ [Rejected ("Unknown recipe: " +:+ itemName)]) b).
Proof.
  intros Hne b.
  assert (Hnone : recipes (crafting b) !! itemName = None).
  { unfold b. rewrite recipes_run. simpl. unfold Crafting._loadRecipes.
    rewrite lookup_insert_ne by done. apply lookup_empty. }
  unfold Crafting.craft.
  assert (Hnew : new_promise b = (length (promises b), snd (new_promise b))) by done.
  rewrite Hnew. unfold Crafting.craft_body.
  assert (Hc : crafting (snd (new_promise b)) = crafting b) by done.
  rewrite Hc, Hnone. by rewrite settle_new.
Qed.

Lemma craft_unknown_recipe_rejected_witness :
  Crafting.craft example_math "torch" 1 (run example_math [pkt_connect] new_bot)
  = (length (promises (run example_math [pkt_connect] new_bot)),
     set_promises
       (promises (run example_math [pkt_connect] new_bot)
          ++ [Rejected ("Unknown recipe: " +:+ "torch")])
       (run example_math [pkt_connect] new_bot)).
Proof.
  apply (craft_unknown_recipe_rejected example_math [pkt_connect] "torch" 1).
  discriminate.
Defined.

(** ** The inventory is the server's *)

Lemma slots_step (M : JSMath) (b : Bot) (i : Input) :
  is_inventory_packet i = false →
  slots (inventory (step M b i)) = slots (inventory b)
  ∧ slot_props (inventory (step M b i)) = slot_props (inventory b).
Proof. destruct i; try done; intros _; step_cases; by split. Qed.

(** X22. The bot never updates its own view of the inventory: [moveItem],
    [dropItem], [craft] and [selectSlot] write their commands and leave the
    slots as they are, and so does every other input that is not a
    [window_items] or [set_slot] packet.  Until the server sends one of these,
    [findItem] answers as before, whatever was moved, dropped or crafted. *)
Theorem inventory_changed_by_packets_only (M : JSMath) (tr : list Input) (b : Bot)
    (itemName : ItemKey) :
  existsb is_inventory_packet tr = false →
  slots (inventory (run M tr b)) = slots (inventory b)
  ∧ slot_props (inventory (run M tr b)) = slot_props (inventory b)
  ∧ Inventory.findItem itemName (inventory (run M tr b))
    = Inventory.findItem itemName (inventory b).
Proof.
  intros Htr.
  assert (H : slots (inventory (run M tr b)) = slots (inventory b)
              ∧ slot_props (inventory (run M tr b)) = slot_props (inventory b)).
  { revert b. induction tr as [|i tr IH]; intros b; [done|].
    simpl in Htr. apply orb_false_iff in Htr as [Hi Htr].
    destruct (slots_step M b i Hi) as [Hs Hp].
    destruct (IH Htr (step M b i)) as [Hs' Hp'].
    unfold run in *; simpl. by rewrite Hs', Hp', Hs, Hp. }
  destruct H as [Hs Hp]. split; [done|]. split; [done|].
  unfold Inventory.findItem. by rewrite Hs.
Qed.

Lemma inventory_changed_by_packets_only_witness :
  slots (inventory (run example_math
                      [call_moveItem 36 1; call_dropItem 36 true; call_craft "stick" 1;
                       call_selectSlot 3; tick_physics]
                      with_planks))
  = slots (inventory with_planks)
  ∧ slot_props (inventory (run example_math
                             [call_moveItem 36 1; call_dropItem 36 true;
                              call_craft "stick" 1; call_selectSlot 3; tick_physics]
                             with_planks))
    = slot_props (inventory with_planks)
  ∧ Inventory.findItem (ByName "planks")
      (inventory (run example_math
                    [call_moveItem 36 1; call_dropItem 36 true; call_craft "stick" 1;
                     call_selectSlot 3; tick_physics]
                    with_planks))
    = Inventory.findItem (ByName "planks") (inventory with_planks).
Proof.
  apply (inventory_changed_by_packets_only example_math
           [call_moveItem 36 1; call_dropItem 36 true; call_craft "stick" 1;
            call_selectSlot 3; tick_physics]
           with_planks (ByName "planks")).
  reflexivity.
Defined.

(** ** The [onGround] flag *)

Lemma onGround_step (M : JSMath) (b : Bot) (i : Input) :
  onGround (step M b i) = onGround_after (onGround b) i.
Proof. destruct i; step_cases; reflexivity. Qed.

Lemma onGround_run (M : JSMath) (tr : list Input) (b : Bot) :
  onGround (run M tr b) = fold_left onGround_after tr (onGround b).
Proof.
  revert b. induction tr as [|i tr IH]; intros b; [done|].
  unfold run in *; simpl. by rewrite IH, onGround_step.
Qed.

(** X23. The bot's [onGround] field is the flag of the last [position]
    packet, and undefined before the first one: the physics tick works out
    whether the bot stands on a block for the position command it writes but
    does not store it.  So the [look] command of [lookAt] carries the
    server's last flag, or no flag at all, however the bot has moved since. *)
Theorem lookAt_reports_packet_onGround (M : JSMath) (tr : list Input) (x y z : Q) :
  let b := run M tr new_bot in
  onGround b = last_onGround tr
  ∧ ∃ yaw' pitch',
      written (MinecraftBot.lookAt M x y z b)
      = written b ++ [w_look yaw' pitch' (last_onGround tr)].
Proof.
  intros b.
  assert (Hg : onGround b = last_onGround tr) by apply onGround_run.
  split; [exact Hg|].
  unfold MinecraftBot.lookAt, write. simpl. rewrite Hg. by eexists _, _.
Qed.

(** ** Entities that have moved *)

(** Once the position of an object is [NaN] it stays so: only the
    [entity_move] handler writes positions, and it writes [NaN]. *)
Lemma lost_step (id : Z) (r : nat) (i : Input) (t : EntityTracker) :
  lost id r t → lost id r (tracker_step i t).
Proof.
  intros (e & He & Hid & Hp). unfold lost.
  assert (Hlt : (r < length (objects t))%nat) by (by eapply lookup_lt_Some).
  destruct i; simpl; eauto.
  - unfold EntityTracker.updateMetadata.
    destruct (JSMap.get entityId (entities t)) as [r'|]; eauto.
    destruct (objects t !! r') as [e'|] eqn:He'; eauto. simpl.
    destruct (decide (r' = r)) as [->|Hne].
    + rewrite list_lookup_insert_eq by done.
      assert (e' = e) as -> by congruence. by eexists.
    + rewrite list_lookup_insert_ne by done. eauto.
  - rewrite lookup_app_l by done. eauto.
  - rewrite lookup_app_l by done. eauto.
  - rewrite destroy_objects. eauto.
  - unfold EntityTracker.on_entity_move.
    destruct (JSMap.get entityId (entities t)) as [r'|]; eauto.
    destruct (objects t !! r') as [e'|] eqn:He'; eauto. simpl.
    destruct (decide (r' = r)) as [->|Hne].
    + rewrite list_lookup_insert_eq by done.
      assert (e' = e) as -> by congruence. eexists. split; [done|].
      split; [done|]. simpl. by rewrite Hp.
    + rewrite list_lookup_insert_ne by done. eauto.
Qed.

(** The distance to a position that is [NaN] is [NaN]. *)
Lemma distanceTo_NaN (M : JSMath) (p : Vec3.t) :
  Vec3.distanceTo M (vec3 Num.NaN Num.NaN Num.NaN) p = Num.NaN.
Proof. unfold Vec3.distanceTo. simpl. by destruct (Vec3.x p). Qed.

(** The loop of [findNearestEntity] and [findNearestPlayer] does not answer
    an object whose position is [NaN]. *)
Lemma lost_not_nearest (M : JSMath) (b : Bot) (keep : Entity → bool)
    (refs : list nat) (bound : option Num.t) (id : Z) (r : nat) :
  lost id r (bot_entities b) →
  EntityTracker.nearest M (objects (bot_entities b)) (position b) keep refs None bound
  ≠ Some r.
Proof.
  intros (e & He & _ & Hp) Hres.
  destruct (nearest_loop M b keep refs None bound) as [[Hnone _]|(r' & Hr' & Hn)].
  - congruence.
  - rewrite Hres in Hr'. injection Hr' as <-.
    destruct Hn as (e' & _ & He' & _ & Hnear & _).
    assert (e' = e) as -> by congruence.
    unfold distance_of in Hnear. rewrite Hp, distanceTo_NaN in Hnear.
    by destruct bound.
Qed.

(** X24. An entity that has moved is lost to the bot.  The [entity_move]
    handler hands [add] three numbers where [add] takes a vector, so the
    position of the entity becomes [NaN] in every coordinate, and no later
    packet repairs it.  From then on, in every state the bot reaches,
    [findNearestEntity] and [findNearestPlayer] do not answer the entity
    (its distance is [NaN], which is less than nothing), and when it is the
    target of the combat loop it counts as in reach wherever it has gone
    ([distance > 3] is false): the bot does not chase it. *)
Theorem moved_entity_is_lost (M : JSMath) (tr0 tr : list Input) (id : Z)
    (dX dY dZ : Q) (r : nat) :
  let b := run M tr0 new_bot in
  JSMap.get id (entities (bot_entities b)) = Some r →
  let b' := run M (pkt_entity_move id dX dY dZ :: tr) b in
  lost id r (bot_entities b')
  ∧ (∀ types maxDistance,
       EntityTracker.findNearestEntity M types maxDistance b' ≠ Some r)
  ∧ (∀ maxDistance, EntityTracker.findNearestPlayer M maxDistance b' ≠ Some r)
  ∧ (connected b' = true → target (combat b') = Some r →
     JSMap.get id (entities (bot_entities b')) = Some r →
     target_in_reach M b' = true).
Proof.
  intros b Hget b'.
  assert (Hlost : lost id r (bot_entities b')).
  { subst b'.
    change (run M (pkt_entity_move id dX dY dZ :: tr) b)
      with (run M tr (step M b (pkt_entity_move id dX dY dZ))).
    rewrite bot_entities_run.
    assert (H0 : lost id r (bot_entities (step M b (pkt_entity_move id dX dY dZ)))).
    { assert (Hok : tracker_ok (bot_entities b))
        by apply tracker_ok_run, tracker_ok_new.
      destruct (Hok id r) as (e & He & Hid);
        [left; by apply JSMap_get_elem_of|].
      rewrite bot_entities_step. simpl. unfold EntityTracker.on_entity_move.
      rewrite Hget, He.
      exists (EntityTracker.set_position
                (Vec3.add3 (e_position e) (dX / 32)%Q (dY / 32)%Q (dZ / 32)%Q) e).
      simpl. split; [|split; [done|]].
      - apply list_lookup_insert_eq. by eapply lookup_lt_Some.
      - unfold Vec3.add3. by destruct (e_position e) as [[] [] []]. }
    revert H0. generalize (bot_entities (step M b (pkt_entity_move id dX dY dZ))).
    induction tr as [|i tr IH]; intros t Ht; [done|].
    simpl. apply IH. by apply lost_step. }
  split; [exact Hlost|]. split; [|split].
  - intros types maxDistance. by eapply lost_not_nearest.
  - intros maxDistance. by eapply lost_not_nearest.
  - intros Hc Ht Hget'. destruct Hlost as (e & He & Hid & Hp).
    unfold target_in_reach. rewrite Hc, Ht, He, Hid, Hget', He, Hp, distanceTo_NaN.
    reflexivity.
Qed.

Lemma moved_entity_is_lost_witness :
  let b := run example_math
             [pkt_connect; pkt_spawn_entity 7 "zombie" 1 0 0 0 0 0 0 0;
              call_attackNearestEntity ["zombie"] (Some 16%Q)] new_bot in
  let b' := run example_math [pkt_entity_move 7 320 0 0; tick_combat] b in
  lost 7 0 (bot_entities b')
  ∧ (∀ types maxDistance,
       EntityTracker.findNearestEntity example_math types maxDistance b' ≠ Some 0%nat)
  ∧ (∀ maxDistance,
       EntityTracker.findNearestPlayer example_math maxDistance b' ≠ Some 0%nat)
  ∧ (connected b' = true → target (combat b') = Some 0%nat →
     JSMap.get 7 (entities (bot_entities b')) = Some 0%nat →
     target_in_reach example_math b' = true).
Proof.
  apply (moved_entity_is_lost example_math
           [pkt_connect; pkt_spawn_entity 7 "zombie" 1 0 0 0 0 0 0 0;
            call_attackNearestEntity ["zombie"] (Some 16%Q)]
           [tick_combat] 7 320 0 0 0).
  reflexivity.
Defined.
